(** * A shallow embedding of the South African ID parser

    The development follows [src/luhn.ts], [src/types.ts] and
    [src/parser.ts].  JavaScript strings are sequences of UTF-16 code
    units; numbers that the code manipulates are small integers (digit
    sums, two- and four-digit fields, day counts), all far below 2^53, so
    they are represented exactly by [Z].  [NaN] results of [parseInt] are
    represented by [None]. *)

From Stdlib Require Import ZArith NArith List Bool Lia String Ascii Arith.
Import ListNotations.

Local Open Scope Z_scope.

(* ================================================================== *)
(** ** JavaScript strings *)

Module JsString.

(** A UTF-16 code unit. *)
Definition codeUnit := N.

Definition t := list codeUnit.

(** Literals: every character of a Rocq string denotes the code unit
    with the same number (Latin-1 range). *)
Definition ofString (s : string) : t :=
  List.map N_of_ascii (list_ascii_of_string s).

(** [\d] in a regular expression without the [u] flag, and the digits
    that [parseInt] accepts in radix 10: U+0030 .. U+0039. *)
Definition isAsciiDigit (c : codeUnit) : bool :=
  ((48 <=? c) && (c <=? 57))%N.

Definition digitValue (c : codeUnit) : Z := Z.of_N c - 48.

(** ECMAScript [WhiteSpace] and [LineTerminator] code points, the ones
    that [String.prototype.trim] removes and that [parseInt] skips. *)
Definition isWhiteSpace (c : codeUnit) : bool :=
  ((c =? 9) || (c =? 10) || (c =? 11) || (c =? 12) || (c =? 13)
   || (c =? 32) || (c =? 160) || (c =? 5760)
   || ((8192 <=? c) && (c <=? 8202))
   || (c =? 8232) || (c =? 8233) || (c =? 8239) || (c =? 8287)
   || (c =? 12288) || (c =? 65279))%N.

Fixpoint trimStart (s : t) : t :=
  match s with
  | [] => []
  | c :: r => if isWhiteSpace c then trimStart r else s
  end.

Definition trimEnd (s : t) : t := rev (trimStart (rev s)).

(** [s.trim()] *)
Definition trim (s : t) : t := trimEnd (trimStart s).

(** [s.slice(a, b)] for non-negative [a] and [b]; both ends are clamped
    to the length and an empty range gives the empty string. *)
Definition slice (s : t) (a b : nat) : t := firstn (b - a) (skipn a s).

(** The longest prefix of radix-10 digits, read as a number. *)
Fixpoint digitPrefix (s : t) : list Z :=
  match s with
  | [] => []
  | c :: r => if isAsciiDigit c then digitValue c :: digitPrefix r else []
  end.

Definition decimalValue (ds : list Z) : Z :=
  fold_left (fun acc d => 10 * acc + d) ds 0.

(** [parseInt(s, 10)]: leading white space is skipped, one sign is
    accepted, then the longest digit prefix is read; no digit gives
    [NaN].  The value is exact for inputs below 2^53, which covers every
    call site (slices of at most four characters). *)
Definition parseInt (s : t) : option Z :=
  let s1 := trimStart s in
  let '(sign, s2) :=
    match s1 with
    | c :: r =>
        if N.eqb c 45 then (-1, r)        (* "-" *)
        else if N.eqb c 43 then (1, r)    (* "+" *)
        else (1, s1)
    | [] => (1, s1)
    end in
  match digitPrefix s2 with
  | [] => None
  | ds => Some (sign * decimalValue ds)
  end.

End JsString.

Import JsString.

(* ================================================================== *)
(** ** Regular expressions: the fragment used by [ID_REGEX] *)

Module RegExp.

Inductive regex : Type :=
| Bol                              (* ^  *)
| Eol                              (* $  *)
| ClassDigit                       (* \d *)
| Repeat (n : nat) (r : regex)     (* r{n} *)
| Seq (r1 r2 : regex).

Section Match.
Variable input : JsString.t.

Fixpoint iter (n : nat) (f : nat -> option nat) (pos : nat) : option nat :=
  match n with
  | O => Some pos
  | S k => match f pos with
           | Some p => iter k f p
           | None => None
           end
  end.

(** [matchAt r pos] is the end position of the match of [r] that
    starts at [pos].  The fragment has neither alternation nor
    variable quantifiers, so a match is unique when it exists.
    Without the [m] flag the anchors match only at the two ends of
    the input. *)
Fixpoint matchAt (r : regex) (pos : nat) : option nat :=
  match r with
  | Bol => if Nat.eqb pos 0 then Some pos else None
  | Eol => if Nat.eqb pos (List.length input) then Some pos else None
  | ClassDigit =>
      match nth_error input pos with
      | Some c => if isAsciiDigit c then Some (S pos) else None
      | None => None
      end
  | Repeat n r1 => iter n (matchAt r1) pos
  | Seq r1 r2 =>
      match matchAt r1 pos with
      | Some p => matchAt r2 p
      | None => None
      end
  end.
End Match.

Definition isSome {A} (o : option A) : bool :=
  match o with Some _ => true | None => false end.

(** [re.test(input)] for a regular expression without the [g] and [y]
    flags: the search tries every start position from the left. *)
Definition test (r : regex) (input : JsString.t) : bool :=
  existsb (fun start => isSome (matchAt input r start))
          (seq 0 (S (List.length input))).

End RegExp.

(* ================================================================== *)
(** ** [src/luhn.ts] *)

(** The body of the [for] loop, with [n = i + 1] iterations left. *)
Fixpoint luhn_loop (digits : JsString.t) (n : nat)
         (sum : Z) (shouldDouble : bool) : bool :=
  match n with
  | O => sum mod 10 =? 0
  | S i =>
      match nth_error digits i with
      | None => false
      | Some char =>
          match parseInt [char] with
          | None => false
          | Some digit =>
              let digit :=
                if shouldDouble
                then (let digit := digit * 2 in
                      if digit >? 9 then digit - 9 else digit)
                else digit in
              luhn_loop digits i (sum + digit) (negb shouldDouble)
          end
      end
  end.

Definition luhn (digits : JsString.t) : bool :=
  luhn_loop digits (List.length digits) 0 false.

(** *** The checksum as the specification words it *)

(** A doubled digit, with 9 subtracted when it exceeds 9. *)
Definition doubled (d : Z) : Z := if 2 * d >? 9 then 2 * d - 9 else 2 * d.

(** The contribution of the digit [d] that stands [k] places from the
    right end ([k = 0] is the last character). *)
Definition weightAt (k : nat) (d : Z) : Z :=
  if Nat.odd k then doubled d else d.

(** Sum of the contributions of [ds], listed right to left, the first of
    which stands [k] places from the right end. *)
Fixpoint weightedSumFrom (k : nat) (ds : list Z) : Z :=
  match ds with
  | [] => 0
  | d :: r => weightAt k d + weightedSumFrom (S k) r
  end.

Definition weightedSum (s : JsString.t) : Z :=
  weightedSumFrom 0 (rev (List.map digitValue s)).

Definition allDigits (s : JsString.t) : Prop :=
  Forall (fun c => isAsciiDigit c = true) s.


(* ================================================================== *)
(** ** The [Date] built-in

    A [Date] is represented by its time value read in local time:
    milliseconds counted from local midnight of 1 January 1970.  The local
    zone is taken to have a fixed offset from UTC (as South African
    Standard Time has), so that [LocalTime] and [UTC] are translations by a
    constant, which cancels in every comparison and every getter used
    here.  The day arithmetic is that of ECMA-262, section "Date Objects".
    All dates built by the parser lie in the years 1900 to 2099, far inside
    the range in which [TimeClip] is the identity.  Module [HostZone],
    further down, carries the zone as a parameter and relates the two. *)

Module JsDate.

Definition date := Z.

Definition msPerDay : Z := 86400000.

Definition Day (t : Z) : Z := t / msPerDay.

Definition DaysInYear (y : Z) : Z :=
  if negb (y mod 4 =? 0) then 365
  else if negb (y mod 100 =? 0) then 366
  else if negb (y mod 400 =? 0) then 365
  else 366.

Definition DayFromYear (y : Z) : Z :=
  365 * (y - 1970) + (y - 1969) / 4 - (y - 1901) / 100 + (y - 1601) / 400.

(** [YearFromTime], on day numbers: the largest year whose first day is
    not after day [d].  ECMA-262 states it as this property; here it is
    computed from a first guess by the mean length of a year, moved by one
    year when it is off ([DateFacts.YearFromDay_bracket] and
    [DateFacts.YearFromDay_unique] show that it has the property). *)
Definition YearFromDay (d : Z) : Z :=
  let y := 1970 + (400 * d) / 146097 in
  if d <? DayFromYear y then y - 1
  else if DayFromYear (y + 1) <=? d then y + 1
  else y.

Definition YearFromTime (t : Z) : Z := YearFromDay (Day t).

Definition InLeapYear (t : Z) : Z :=
  if DaysInYear (YearFromTime t) =? 366 then 1 else 0.

Definition DayWithinYear (t : Z) : Z :=
  Day t - DayFromYear (YearFromTime t).

Definition MonthFromTime (t : Z) : Z :=
  let d := DayWithinYear t in
  let leap := InLeapYear t in
  if d <? 31 then 0
  else if d <? 59 + leap then 1
  else if d <? 90 + leap then 2
  else if d <? 120 + leap then 3
  else if d <? 151 + leap then 4
  else if d <? 181 + leap then 5
  else if d <? 212 + leap then 6
  else if d <? 243 + leap then 7
  else if d <? 273 + leap then 8
  else if d <? 304 + leap then 9
  else if d <? 334 + leap then 10
  else 11.

Definition DateFromTime (t : Z) : Z :=
  let d := DayWithinYear t in
  let leap := InLeapYear t in
  match MonthFromTime t with
  | 0 => d + 1
  | 1 => d - 30
  | 2 => d - 58 - leap
  | 3 => d - 89 - leap
  | 4 => d - 119 - leap
  | 5 => d - 150 - leap
  | 6 => d - 180 - leap
  | 7 => d - 211 - leap
  | 8 => d - 242 - leap
  | 9 => d - 272 - leap
  | 10 => d - 303 - leap
  | _ => d - 333 - leap
  end.

(** Number of days of the year [ym] that precede its month [mn]
    (0-based). *)
Definition daysBeforeMonth (ym mn : Z) : Z :=
  let leap := if DaysInYear ym =? 366 then 1 else 0 in
  match mn with
  | 0 => 0
  | 1 => 31
  | 2 => 59 + leap
  | 3 => 90 + leap
  | 4 => 120 + leap
  | 5 => 151 + leap
  | 6 => 181 + leap
  | 7 => 212 + leap
  | 8 => 243 + leap
  | 9 => 273 + leap
  | 10 => 304 + leap
  | _ => 334 + leap
  end.

(** [MakeDay(year, month, date)]: the day number of the first of the
    month, plus [date - 1]; months outside 0..11 carry into the year. *)
Definition MakeDay (year month dt : Z) : Z :=
  let ym := year + month / 12 in
  let mn := month mod 12 in
  DayFromYear ym + daysBeforeMonth ym mn + dt - 1.

Definition MakeDate (day time : Z) : Z := day * msPerDay + time.

(** [new Date(year, month, date)]: local midnight of that day; a year
    from 0 to 99 stands for 1900 + year. *)
Definition make (year month dt : Z) : date :=
  let yr := if (0 <=? year) && (year <=? 99) then 1900 + year else year in
  MakeDate (MakeDay yr month dt) 0.

Definition getFullYear (d : date) : Z := YearFromTime d.
Definition getMonth (d : date) : Z := MonthFromTime d.
Definition getDate (d : date) : Z := DateFromTime d.

End JsDate.

(* ================================================================== *)
(** ** [src/types.ts] *)

Inductive Gender : Type := male | female.

Inductive CitizenshipStatus : Type := citizen | permanent_resident.

Inductive InvalidReason : Type :=
| INVALID_FORMAT
| INVALID_DATE
| INVALID_CITIZENSHIP_DIGIT
| INVALID_CHECKSUM.

Record RawSegments : Type := {
  yearPart : JsString.t;
  monthPart : JsString.t;
  dayPart : JsString.t;
  genderSequence : JsString.t;
  citizenshipDigit : JsString.t;
  legacyDigit : JsString.t;
  checksumDigit : JsString.t
}.

Record ParsedID : Type := {
  idNumber : JsString.t;
  dateOfBirth : JsDate.date;
  age : Z;
  gender : Gender;
  citizenship : CitizenshipStatus;
  isCitizen : bool;
  segments : RawSegments
}.

(** The [idNumber] field of an [InvalidID] is [invalidIdNumber] here, as
    a record field name can be declared only once. *)
Record InvalidID : Type := {
  invalidIdNumber : JsString.t;
  reason : InvalidReason
}.

(** [IDResult = ParsedID | InvalidID], told apart by the [valid] field. *)
Inductive IDResult : Type :=
| Valid (p : ParsedID)
| Invalid (i : InvalidID).

Definition valid (r : IDResult) : bool :=
  match r with Valid _ => true | Invalid _ => false end.

(** [r.idNumber], present in both variants. *)
Definition resultIdNumber (r : IDResult) : JsString.t :=
  match r with
  | Valid p => idNumber p
  | Invalid i => invalidIdNumber i
  end.

(** [r.segments], a property of the [ParsedID] variant only. *)
Definition resultSegments (r : IDResult) : option RawSegments :=
  match r with
  | Valid p => Some (segments p)
  | Invalid _ => None
  end.

(** [r.reason], a property of the [InvalidID] variant only. *)
Definition resultReason (r : IDResult) : option InvalidReason :=
  match r with
  | Valid _ => None
  | Invalid i => Some (reason i)
  end.

(* ================================================================== *)
(** ** [src/parser.ts] *)

(** The parser reads the host clock with [new Date()] at three places.
    A [Clock] gives the three readings in the order in which one call of
    [parse] makes them. *)
Record Clock : Type := {
  readResolveYear : JsDate.date;   (* [resolveYear], for the current year *)
  readParseDate : JsDate.date;     (* [parseDate], for the future check *)
  readCalculateAge : JsDate.date   (* [calculateAge] *)
}.

(** A clock that stands still for the whole call. *)
Definition fixedClock (now : JsDate.date) : Clock :=
  {| readResolveYear := now; readParseDate := now; readCalculateAge := now |}.

(** [a === b] on strings. *)
Fixpoint strEq (a b : JsString.t) : bool :=
  match a, b with
  | [], [] => true
  | x :: a', y :: b' => N.eqb x y && strEq a' b'
  | _, _ => false
  end.

(** [/^\d{13}$/] *)
Definition ID_REGEX : RegExp.regex :=
  RegExp.Seq RegExp.Bol
    (RegExp.Seq (RegExp.Repeat 13 RegExp.ClassDigit) RegExp.Eol).

Definition extractSegments (id : JsString.t) : RawSegments :=
  {| yearPart := slice id 0 2;
     monthPart := slice id 2 4;
     dayPart := slice id 4 6;
     genderSequence := slice id 6 10;
     citizenshipDigit := slice id 10 11;
     legacyDigit := slice id 11 12;
     checksumDigit := slice id 12 13 |}.

Definition resolveYear (now : JsDate.date) (yy : Z) : Z :=
  let currentYear := JsDate.getFullYear now in
  let year2000 := 2000 + yy in
  let year1900 := 1900 + yy in
  if year2000 <=? currentYear then year2000 else year1900.

Definition parseDate (clk : Clock) (segs : RawSegments) : option JsDate.date :=
  match parseInt (yearPart segs),
        parseInt (monthPart segs),
        parseInt (dayPart segs) with
  | Some yy, Some mm, Some dd =>
      if (mm <? 1) || (mm >? 12) then None
      else if (dd <? 1) || (dd >? 31) then None
      else
        let year := resolveYear (readResolveYear clk) yy in
        let date := JsDate.make year (mm - 1) dd in
        if negb (JsDate.getFullYear date =? year)
           || negb (JsDate.getMonth date =? mm - 1)
           || negb (JsDate.getDate date =? dd)
        then None
        else if date >? readParseDate clk then None
        else Some date
  | _, _, _ => None
  end.

Definition calculateAge (today dob : JsDate.date) : Z :=
  let age := JsDate.getFullYear today - JsDate.getFullYear dob in
  let hasHadBirthdayThisYear :=
    (JsDate.getMonth today >? JsDate.getMonth dob)
    || ((JsDate.getMonth today =? JsDate.getMonth dob)
        && (JsDate.getDate today >=? JsDate.getDate dob)) in
  if negb hasHadBirthdayThisYear then age - 1 else age.

Definition invalid (id : JsString.t) (why : InvalidReason) : IDResult :=
  Invalid {| invalidIdNumber := id; reason := why |}.

(** [genderSequence >= 5000 ? "male" : "female"]; a comparison with [NaN]
    is false. *)
Definition genderOf (genderSeq : option Z) : Gender :=
  match genderSeq with
  | Some n => if n >=? 5000 then male else female
  | None => female
  end.

Definition parse (clk : Clock) (input : JsString.t) : IDResult :=
  let id := trim input in
  if negb (RegExp.test ID_REGEX id) then invalid id INVALID_FORMAT
  else
    let segs := extractSegments id in
    match parseDate clk segs with
    | None => invalid id INVALID_DATE
    | Some dob =>
        let cDigit := citizenshipDigit segs in
        if negb (strEq cDigit (ofString "0"))
           && negb (strEq cDigit (ofString "1"))
           && negb (strEq cDigit (ofString "2"))
        then invalid id INVALID_CITIZENSHIP_DIGIT
        else if negb (luhn id) then invalid id INVALID_CHECKSUM
        else
          let genderSeq := parseInt (genderSequence segs) in
          Valid {| idNumber := id;
                   dateOfBirth := dob;
                   age := calculateAge (readCalculateAge clk) dob;
                   gender := genderOf genderSeq;
                   citizenship :=
                     if strEq cDigit (ofString "0")
                     then citizen else permanent_resident;
                   isCitizen := strEq cDigit (ofString "0");
                   segments := segs |}
    end.

Definition isValid (clk : Clock) (input : JsString.t) : bool :=
  valid (parse clk input).

Definition getDateOfBirth (clk : Clock) (input : JsString.t)
  : option JsDate.date :=
  match parse clk input with
  | Valid p => Some (dateOfBirth p)
  | Invalid _ => None
  end.

Definition getGender (clk : Clock) (input : JsString.t) : option Gender :=
  match parse clk input with
  | Valid p => Some (gender p)
  | Invalid _ => None
  end.

Definition getAge (clk : Clock) (input : JsString.t) : option Z :=
  match parse clk input with
  | Valid p => Some (age p)
  | Invalid _ => None
  end.

Definition getCitizenship (clk : Clock) (input : JsString.t)
  : option CitizenshipStatus :=
  match parse clk input with
  | Valid p => Some (citizenship p)
  | Invalid _ => None
  end.

(** *** The control flow of [parse], made observable

    [parseLogged] is [parse] with a log of the guards that the call
    evaluates, in order.  Lemma [parseLogged_result] shows that the
    outcome is that of [parse]. *)

Inductive ValidationStep : Type :=
| FormatCheck
| DateCheck
| CitizenshipCheck
| ChecksumCheck.

Definition parseLogged (clk : Clock) (input : JsString.t)
  : list ValidationStep * IDResult :=
  let id := trim input in
  let log := [FormatCheck] in
  if negb (RegExp.test ID_REGEX id) then (log, invalid id INVALID_FORMAT)
  else
    let segs := extractSegments id in
    let log := log ++ [DateCheck] in
    match parseDate clk segs with
    | None => (log, invalid id INVALID_DATE)
    | Some dob =>
        let cDigit := citizenshipDigit segs in
        let log := log ++ [CitizenshipCheck] in
        if negb (strEq cDigit (ofString "0"))
           && negb (strEq cDigit (ofString "1"))
           && negb (strEq cDigit (ofString "2"))
        then (log, invalid id INVALID_CITIZENSHIP_DIGIT)
        else
          let log := log ++ [ChecksumCheck] in
          if negb (luhn id) then (log, invalid id INVALID_CHECKSUM)
          else
            let genderSeq := parseInt (genderSequence segs) in
            (log,
             Valid {| idNumber := id;
                      dateOfBirth := dob;
                      age := calculateAge (readCalculateAge clk) dob;
                      gender := genderOf genderSeq;
                      citizenship :=
                        if strEq cDigit (ofString "0")
                        then citizen else permanent_resident;
                      isCitizen := strEq cDigit (ofString "0");
                      segments := segs |})
    end.

(* ================================================================== *)
(** ** The vocabulary of the specification *)

(** Exactly 13 ASCII digits. *)
Definition thirteenDigits (id : JsString.t) : Prop :=
  List.length id = 13%nat /\ allDigits id.

Definition thirteenDigitsb (id : JsString.t) : bool :=
  Nat.eqb (List.length id) 13 && forallb isAsciiDigit id.

(** [r] is [s] without its leading and trailing white space. *)
Definition stripped (s r : JsString.t) : Prop :=
  exists pre post,
    s = pre ++ r ++ post
    /\ Forall (fun c => isWhiteSpace c = true) pre
    /\ Forall (fun c => isWhiteSpace c = true) post
    /\ (forall c, hd_error r = Some c -> isWhiteSpace c = false)
    /\ (forall c, hd_error (rev r) = Some c -> isWhiteSpace c = false).

(** The number written by the [len] digits of [id] that start at the
    0-based index [from]. *)
Definition field (id : JsString.t) (from len : nat) : Z :=
  decimalValue (List.map digitValue (firstn len (skipn from id))).

Definition yearField (id : JsString.t) : Z := field id 0 2.
Definition monthField (id : JsString.t) : Z := field id 2 2.
Definition dayField (id : JsString.t) : Z := field id 4 2.
Definition genderField (id : JsString.t) : Z := field id 6 4.

(** The character at index 10. *)
Definition citizenshipChar (id : JsString.t) : option codeUnit :=
  nth_error id 10.

(** 2000 + YY when that does not exceed the current year, else 1900 + YY. *)
Definition centuryYear (currentYear yy : Z) : Z :=
  if 2000 + yy <=? currentYear then 2000 + yy else 1900 + yy.

Definition isLeapYear (y : Z) : bool :=
  ((y mod 4 =? 0) && negb (y mod 100 =? 0)) || (y mod 400 =? 0).

(** Days of the month [m] (1 to 12) of the Gregorian year [y]. *)
Definition daysInMonth (y m : Z) : Z :=
  match m with
  | 1 | 3 | 5 | 7 | 8 | 10 | 12 => 31
  | 4 | 6 | 9 | 11 => 30
  | 2 => if isLeapYear y then 29 else 28
  | _ => 0
  end.

Definition realCalendarDate (y m d : Z) : Prop :=
  1 <= m <= 12 /\ 1 <= d <= daysInMonth y m.

(** A calendar date: year, month (1 to 12), day of the month. *)
Definition calendarDate : Type := (Z * Z * Z)%type.

(** The calendar date on which the instant [t] falls. *)
Definition dateOfInstant (t : JsDate.date) : calendarDate :=
  (JsDate.getFullYear t, JsDate.getMonth t + 1, JsDate.getDate t).

(** [a] is a strictly later day than [b]. *)
Definition laterDate (a b : calendarDate) : Prop :=
  let '(ya, ma, da) := a in
  let '(yb, mb, db) := b in
  yb < ya \/ (yb = ya /\ (mb < ma \/ (mb = ma /\ db < da))).

(** The (month, day) pair [a] comes earlier in the year than [b]. *)
Definition earlierInYear (a b : Z * Z) : bool :=
  (fst a <? fst b) || ((fst a =? fst b) && (snd a <? snd b)).

(** The four checks, each as a predicate on the trimmed input. *)
Definition formatOk (id : JsString.t) : bool := thirteenDigitsb id.

Definition dateOk (clk : Clock) (id : JsString.t) : bool :=
  RegExp.isSome (parseDate clk (extractSegments (firstn 6 id))).

Definition citizenshipOk (id : JsString.t) : bool :=
  match citizenshipChar id with
  | Some c => (N.eqb c 48 || N.eqb c 49 || N.eqb c 50)
  | None => false
  end.

Definition checksumOk (id : JsString.t) : bool := luhn id.

(** The reason of a check. *)
Definition reasonOf (c : ValidationStep) : InvalidReason :=
  match c with
  | FormatCheck => INVALID_FORMAT
  | DateCheck => INVALID_DATE
  | CitizenshipCheck => INVALID_CITIZENSHIP_DIGIT
  | ChecksumCheck => INVALID_CHECKSUM
  end.

Definition passes (clk : Clock) (id : JsString.t) (c : ValidationStep)
  : bool :=
  match c with
  | FormatCheck => formatOk id
  | DateCheck => dateOk clk id
  | CitizenshipCheck => citizenshipOk id
  | ChecksumCheck => checksumOk id
  end.

Definition checkOrder : list ValidationStep :=
  [FormatCheck; DateCheck; CitizenshipCheck; ChecksumCheck].

(** The checks up to and including the first that fails, and that one. *)
Fixpoint firstFailure (clk : Clock) (id : JsString.t)
         (cs : list ValidationStep)
  : list ValidationStep * option ValidationStep :=
  match cs with
  | [] => ([], None)
  | c :: r =>
      if passes clk id c
      then let '(ran, f) := firstFailure clk id r in (c :: ran, f)
      else ([c], Some c)
  end.

(** The citizenship character of an ID is ["0"]. *)
Definition citizenDigit (id : JsString.t) : bool :=
  match citizenshipChar id with
  | Some c => N.eqb c 48
  | None => false
  end.

(** The outcome of [parse] on an input that passes the four checks. *)
Definition parsedOf (clk : Clock) (id : JsString.t) (dob : JsDate.date)
  : ParsedID :=
  {| idNumber := id;
     dateOfBirth := dob;
     age := calculateAge (readCalculateAge clk) dob;
     gender := if genderField id >=? 5000 then male else female;
     citizenship := if citizenDigit id then citizen else permanent_resident;
     isCitizen := citizenDigit id;
     segments := extractSegments id |}.

(** Local midnight of a calendar day, for stating examples. *)
Definition midnight (y m d : Z) : JsDate.date := JsDate.make y (m - 1) d.

(** *** Inputs for the examples

    A clock standing at 15 June 2025, 12:34:56.789 local time, and a
    well-formed ID: born 4 January 1990, sequence 9818, citizen. *)
Definition exampleClock : Clock :=
  fixedClock (midnight 2025 6 15 + 45296789).

Definition exampleId : JsString.t := ofString "9001049818080".

Definition exampleParsed : ParsedID :=
  parsedOf exampleClock exampleId (midnight 1990 1 4).

(* ================================================================== *)
(** ** [Date.prototype.toISOString]

    The time value of a [Date] counts from the UTC epoch; the local time
    value used above is that value plus the offset [tza] of the local zone
    (in milliseconds, positive east of Greenwich: 7200000 for South
    African Standard Time).  [toISOString] prints the UTC reading, in the
    form [YYYY-MM-DDTHH:mm:ss.sssZ] for the years 0 to 9999. *)

Definition decimalDigit (n : Z) : codeUnit := Z.to_N (48 + n mod 10).

(** The last [width] decimal digits of [n], zero-padded. *)
Fixpoint padDecimal (width : nat) (n : Z) : JsString.t :=
  match width with
  | O => []
  | S w => padDecimal w (n / 10) ++ [decimalDigit n]
  end.

Definition toISOString (tza : Z) (d : JsDate.date) : JsString.t :=
  let tv := d - tza in
  padDecimal 4 (JsDate.YearFromTime tv) ++ ofString "-"
  ++ padDecimal 2 (JsDate.MonthFromTime tv + 1) ++ ofString "-"
  ++ padDecimal 2 (JsDate.DateFromTime tv) ++ ofString "T"
  ++ padDecimal 2 ((tv / 3600000) mod 24) ++ ofString ":"
  ++ padDecimal 2 ((tv / 60000) mod 60) ++ ofString ":"
  ++ padDecimal 2 ((tv / 1000) mod 60) ++ ofString "."
  ++ padDecimal 3 (tv mod 1000) ++ ofString "Z".

(** [s.split(sep)[0]] for a separator of one character: the part of [s]
    before the first [sep], all of [s] when there is none. *)
Fixpoint splitHead (sep : codeUnit) (s : JsString.t) : JsString.t :=
  match s with
  | [] => []
  | c :: r => if N.eqb c sep then [] else c :: splitHead sep r
  end.

(* ================================================================== *)
(** ** The practical patterns of [examples/esm/index.mjs] and
    [examples/cjs/index.cjs] *)

Module Examples.

(** The value of an [InvalidReason], the key of the [messages] object. *)
Definition reasonKey (r : InvalidReason) : string :=
  match r with
  | INVALID_FORMAT => "INVALID_FORMAT"
  | INVALID_DATE => "INVALID_DATE"
  | INVALID_CITIZENSHIP_DIGIT => "INVALID_CITIZENSHIP_DIGIT"
  | INVALID_CHECKSUM => "INVALID_CHECKSUM"
  end.

(** The object literal [messages] of [validateForm], in source order. *)
Definition messages : list (string * string) :=
  [ ("INVALID_FORMAT", "ID must be exactly 13 digits.");
    ("INVALID_DATE", "The date of birth in this ID is not valid.");
    ("INVALID_CITIZENSHIP_DIGIT",
     "The citizenship indicator is not recognised.");
    ("INVALID_CHECKSUM", "This ID number has been entered incorrectly.") ]
  %string.

(** [obj[key]]; [None] is [undefined]. *)
Fixpoint lookup (obj : list (string * string)) (key : string)
  : option string :=
  match obj with
  | [] => None
  | (k, v) :: r => if String.eqb k key then Some v else lookup r key
  end.

Record FormResult : Type := {
  ok : bool;
  message : option string
}.

Definition validateForm (clk : Clock) (input : JsString.t) : FormResult :=
  match parse clk input with
  | Invalid i =>
      {| ok := false; message := lookup messages (reasonKey (reason i)) |}
  | Valid _ => {| ok := true; message := Some "ID is valid."%string |}
  end.

(** The object that [buildProfile] returns; its [age] and [gender]
    properties are [profileAge] and [profileGender] here. *)
Record Profile : Type := {
  dob : JsString.t;
  profileAge : Z;
  profileGender : Gender;
  status : string
}.

(** [buildProfile]; [None] is [null].  [tza] is the offset of the local
    zone, which [toISOString] removes. *)
Definition buildProfile (tza : Z) (clk : Clock) (input : JsString.t)
  : option Profile :=
  match parse clk input with
  | Invalid _ => None
  | Valid result =>
      Some {| dob := splitHead 84%N (toISOString tza (dateOfBirth result));
              profileAge := age result;
              profileGender := gender result;
              status := if isCitizen result
                        then "SA Citizen"%string
                        else "Permanent Resident"%string |}
  end.

End Examples.

(** *** Vocabulary for the properties of the examples and of [luhn] *)

(** [YYYY-MM-DD] *)
Definition isoDate (d : calendarDate) : JsString.t :=
  let '(y, m, dd) := d in
  padDecimal 4 y ++ ofString "-" ++ padDecimal 2 m ++ ofString "-"
  ++ padDecimal 2 dd.


(** Offset of South African Standard Time, UTC+02:00. *)
Definition SAST : Z := 7200000.

(* ================================================================== *)
(** ** The parser on a host in an arbitrary time zone

    [JsDate] and the parser above take the local zone to have a fixed
    offset.  On a host whose zone changes its offset (daylight saving, a
    change of standard time, a move across the date line), [new Date(y,
    m, d)] and the getters go through the two readings of the zone that
    ECMA-262 calls [LocalTZA(t, true)] and [LocalTZA(t, false)].  This
    module carries them as a parameter.  A [Date] is here its time value,
    counted from the UTC epoch, and so are the readings of the clock.
    Lemma [parse_fixedOffset] shows that in a zone of fixed offset this
    parser is the one above, the local time value being the time value
    plus the offset. *)

Module HostZone.

Record Zone : Type := {
  (* [LocalTZA(t, true)]: the offset in effect at the UTC instant [t] *)
  offsetAt : Z -> Z;
  (* [LocalTZA(t, false)]: the offset by which the local time [t] is
     read; for a local time that a change skipped or repeated, the offset
     before the change *)
  offsetOfLocal : Z -> Z
}.

Definition LocalTime (z : Zone) (t : Z) : Z := t + offsetAt z t.

Definition UTC (z : Zone) (t : Z) : Z := t - offsetOfLocal z t.

(** [new Date(year, month, date)]: the local time [MakeDate(MakeDay(...),
    0)], which [JsDate.make] computes, taken to UTC. *)
Definition make (z : Zone) (year month dt : Z) : JsDate.date :=
  UTC z (JsDate.make year month dt).

Definition getFullYear (z : Zone) (d : JsDate.date) : Z :=
  JsDate.YearFromTime (LocalTime z d).
Definition getMonth (z : Zone) (d : JsDate.date) : Z :=
  JsDate.MonthFromTime (LocalTime z d).
Definition getDate (z : Zone) (d : JsDate.date) : Z :=
  JsDate.DateFromTime (LocalTime z d).

Definition resolveYear (z : Zone) (now : JsDate.date) (yy : Z) : Z :=
  let currentYear := getFullYear z now in
  let year2000 := 2000 + yy in
  let year1900 := 1900 + yy in
  if year2000 <=? currentYear then year2000 else year1900.

Definition parseDate (z : Zone) (clk : Clock) (segs : RawSegments)
  : option JsDate.date :=
  match parseInt (yearPart segs),
        parseInt (monthPart segs),
        parseInt (dayPart segs) with
  | Some yy, Some mm, Some dd =>
      if (mm <? 1) || (mm >? 12) then None
      else if (dd <? 1) || (dd >? 31) then None
      else
        let year := resolveYear z (readResolveYear clk) yy in
        let date := make z year (mm - 1) dd in
        if negb (getFullYear z date =? year)
           || negb (getMonth z date =? mm - 1)
           || negb (getDate z date =? dd)
        then None
        else if date >? readParseDate clk then None
        else Some date
  | _, _, _ => None
  end.

Definition calculateAge (z : Zone) (today dob : JsDate.date) : Z :=
  let age := getFullYear z today - getFullYear z dob in
  let hasHadBirthdayThisYear :=
    (getMonth z today >? getMonth z dob)
    || ((getMonth z today =? getMonth z dob)
        && (getDate z today >=? getDate z dob)) in
  if negb hasHadBirthdayThisYear then age - 1 else age.

Definition parse (z : Zone) (clk : Clock) (input : JsString.t) : IDResult :=
  let id := trim input in
  if negb (RegExp.test ID_REGEX id) then invalid id INVALID_FORMAT
  else
    let segs := extractSegments id in
    match parseDate z clk segs with
    | None => invalid id INVALID_DATE
    | Some dob =>
        let cDigit := citizenshipDigit segs in
        if negb (strEq cDigit (ofString "0"))
           && negb (strEq cDigit (ofString "1"))
           && negb (strEq cDigit (ofString "2"))
        then invalid id INVALID_CITIZENSHIP_DIGIT
        else if negb (luhn id) then invalid id INVALID_CHECKSUM
        else
          let genderSeq := parseInt (genderSequence segs) in
          Valid {| idNumber := id;
                   dateOfBirth := dob;
                   age := calculateAge z (readCalculateAge clk) dob;
                   gender := genderOf genderSeq;
                   citizenship :=
                     if strEq cDigit (ofString "0")
                     then citizen else permanent_resident;
                   isCitizen := strEq cDigit (ofString "0");
                   segments := segs |}
    end.

(** The calendar date on which the instant [t] falls in the zone. *)
Definition dateOfInstant (z : Zone) (t : JsDate.date) : calendarDate :=
  (getFullYear z t, getMonth z t + 1, getDate z t).

(** A zone that keeps one offset, [tza] milliseconds east of UTC. *)
Definition fixedOffset (tza : Z) : Zone :=
  {| offsetAt := fun _ => tza; offsetOfLocal := fun _ => tza |}.

(** The readings of a clock as local time values, [tza] east of UTC. *)
Definition localClock (tza : Z) (clk : Clock) : Clock :=
  {| readResolveYear := readResolveYear clk + tza;
     readParseDate := readParseDate clk + tza;
     readCalculateAge := readCalculateAge clk + tza |}.

(** An outcome with its [dateOfBirth] taken from a local time value to
    the time value, [tza] east of UTC. *)
Definition toTimeValue (tza : Z) (r : IDResult) : IDResult :=
  match r with
  | Valid p =>
      Valid {| idNumber := idNumber p;
               dateOfBirth := dateOfBirth p - tza;
               age := age p;
               gender := gender p;
               citizenship := citizenship p;
               isCitizen := isCitizen p;
               segments := segments p |}
  | Invalid i => Invalid i
  end.

(** The instant at which Samoa moved across the date line: 30 December
    2011, 10:00 UTC, which was midnight at the end of 29 December there. *)
Definition apiaSwitch : Z :=
  JsDate.MakeDate (JsDate.MakeDay 2011 11 30) 36000000.

(** The offsets of Pacific/Apia around that instant: ten hours west of
    UTC before it, fourteen hours east after it, so that the local day of
    30 December 2011 does not exist.  (The daylight-saving changes of the
    zone in other years are left out.) *)
Definition apia : Zone :=
  {| offsetAt := fun t =>
       if t <? apiaSwitch then -36000000 else 50400000;
     offsetOfLocal := fun t =>
       if t <? apiaSwitch + 50400000 then -36000000 else 50400000 |}.

(** The instant at which daylight saving began in Brazil in 2018:
    4 November, 03:00 UTC, local midnight, when clocks went to 01:00. *)
Definition saoPauloSwitch : Z :=
  JsDate.MakeDate (JsDate.MakeDay 2018 10 4) 10800000.

(** The offsets of America/Sao_Paulo around that instant: three hours
    west of UTC before it, two hours after it, so that the local day of
    4 November 2018 begins at 01:00. *)
Definition saoPaulo : Zone :=
  {| offsetAt := fun t =>
       if t <? saoPauloSwitch then -10800000 else -7200000;
     offsetOfLocal := fun t =>
       if t <? saoPauloSwitch - 7200000 then -10800000 else -7200000 |}.

End HostZone.

(* ================================================================== *)
(** * Properties *)

(** ** Strings and [parseInt] *)

Lemma isAsciiDigit_cases (c : codeUnit) :
  isAsciiDigit c = true ->
  (c = 48 \/ c = 49 \/ c = 50 \/ c = 51 \/ c = 52 \/
   c = 53 \/ c = 54 \/ c = 55 \/ c = 56 \/ c = 57)%N.
Proof.
  unfold isAsciiDigit. rewrite andb_true_iff, !N.leb_le. lia.
Qed.

Ltac digit_cases H :=
  apply isAsciiDigit_cases in H;
  repeat (destruct H as [H | H]); subst.

Lemma digit_not_whitespace (c : codeUnit) :
  isAsciiDigit c = true -> isWhiteSpace c = false.
Proof. intros H. digit_cases H; reflexivity. Qed.

Lemma digitValue_range (c : codeUnit) :
  isAsciiDigit c = true -> 0 <= digitValue c <= 9.
Proof. intros H. digit_cases H; unfold digitValue; simpl; lia. Qed.

Lemma trimStart_fixed (s : JsString.t) :
  (forall c, hd_error s = Some c -> isWhiteSpace c = false) ->
  trimStart s = s.
Proof.
  destruct s as [|c r]; simpl; [reflexivity|].
  intros H. now rewrite (H c eq_refl).
Qed.

Lemma digitPrefix_allDigits (s : JsString.t) :
  allDigits s -> digitPrefix s = List.map digitValue s.
Proof.
  induction 1 as [|c r Hc _ IH]; simpl; [reflexivity|].
  now rewrite Hc, IH.
Qed.

(** On a non-empty string of digits [parseInt] reads the whole string. *)
Lemma parseInt_digits (s : JsString.t) :
  s <> [] -> allDigits s ->
  parseInt s = Some (decimalValue (List.map digitValue s)).
Proof.
  intros Hne Hall. unfold parseInt.
  destruct s as [|c r]; [contradiction|].
  pose proof (Forall_inv Hall) as Hc. simpl in Hc.
  rewrite trimStart_fixed
    by (simpl; intros c' [= <-]; now apply digit_not_whitespace).
  assert (N.eqb c 45 = false /\ N.eqb c 43 = false) as [-> ->]
    by (digit_cases Hc; split; reflexivity).
  rewrite digitPrefix_allDigits by assumption.
  cbn [List.map]. now rewrite Z.mul_1_l.
Qed.

(** On a single character [parseInt] is a number exactly for the ten
    ASCII digits. *)
Lemma parseInt_char (c : codeUnit) :
  parseInt [c] = if isAsciiDigit c then Some (digitValue c) else None.
Proof.
  destruct (isAsciiDigit c) eqn:Hc.
  - rewrite parseInt_digits; [|discriminate|now repeat constructor].
    simpl. unfold decimalValue. simpl. reflexivity.
  - unfold parseInt. simpl.
    destruct (isWhiteSpace c); [reflexivity|].
    destruct (N.eqb c 45); [reflexivity|].
    destruct (N.eqb c 43); [reflexivity|].
    simpl. now rewrite Hc.
Qed.

(** ** The Luhn check *)

Lemma firstn_succ_nth_error {A} (l : list A) (i : nat) (x : A) :
  nth_error l i = Some x -> firstn (S i) l = firstn i l ++ [x].
Proof.
  revert i. induction l as [|a l IH]; intros [|i] H; simpl in *;
    try discriminate.
  - now injection H as ->.
  - f_equal. now apply IH.
Qed.

Lemma doubled_code (d : Z) :
  (if d * 2 >? 9 then d * 2 - 9 else d * 2) = doubled d.
Proof. unfold doubled. now rewrite (Z.mul_comm d 2). Qed.

(** The loop invariant: after the characters to the right of index [n]
    have been consumed, [k] of them, the loop accepts exactly when the
    remaining ones are digits and the total is a multiple of ten. *)
Lemma luhn_loop_spec (digits : JsString.t) :
  forall (n k : nat) (sum : Z),
    (n <= List.length digits)%nat ->
    luhn_loop digits n sum (Nat.odd k) = true <->
    allDigits (firstn n digits)
    /\ (sum + weightedSumFrom k
                (rev (List.map digitValue (firstn n digits)))) mod 10 = 0.
Proof.
  induction n as [|i IH]; intros k sum Hn.
  - simpl. rewrite Z.add_0_r, Z.eqb_eq. split.
    + intros H. split; [constructor|exact H].
    + now intros [_ H].
  - cbn [luhn_loop].
    destruct (nth_error digits i) as [c|] eqn:Hnth.
    2:{ apply nth_error_None in Hnth. lia. }
    rewrite (firstn_succ_nth_error _ _ _ Hnth).
    rewrite map_app, rev_app_distr. cbn [List.map rev app weightedSumFrom].
    unfold allDigits. rewrite Forall_app.
    rewrite parseInt_char.
    destruct (isAsciiDigit c) eqn:Hc.
    + replace (negb (Nat.odd k)) with (Nat.odd (S k))
        by (rewrite Nat.odd_succ, <- Nat.negb_odd; reflexivity).
      rewrite IH by lia.
      assert ((if Nat.odd k
               then if digitValue c * 2 >? 9
                    then digitValue c * 2 - 9 else digitValue c * 2
               else digitValue c) = weightAt k (digitValue c)) as ->.
      { unfold weightAt.
        destruct (Nat.odd k); [apply doubled_code|reflexivity]. }
      rewrite Z.add_assoc. unfold allDigits.
      split.
      * intros [H1 H2]. repeat split; try assumption.
        repeat constructor. exact Hc.
      * intros [[H1 _] H2]. split; assumption.
    + split; [discriminate|].
      intros [[_ H] _]. apply Forall_inv in H. congruence.
Qed.

(** C3. [luhn s] is true exactly when every character of [s] is an ASCII
    digit and the weighted sum (right to left, every second digit from
    the second-from-right doubled, 9 subtracted from a doubled value above
    9) is a multiple of ten; so [luhn] of the empty string is true and
    [luhn] of a string with a character that is no ASCII digit is
    false. *)
Theorem luhn_correct :
  (forall s : JsString.t,
      luhn s = true <-> allDigits s /\ weightedSum s mod 10 = 0)
  /\ luhn [] = true
  /\ (forall s c, In c s -> isAsciiDigit c = false -> luhn s = false).
Proof.
  assert (Hmain : forall s : JsString.t,
             luhn s = true <-> allDigits s /\ weightedSum s mod 10 = 0).
  { intros s. unfold luhn, weightedSum.
    change false with (Nat.odd 0).
    rewrite luhn_loop_spec by lia.
    rewrite firstn_all, Z.add_0_l. reflexivity. }
  split; [exact Hmain|]. split; [reflexivity|].
  intros s c Hin Hc.
  destruct (luhn s) eqn:Hl; [|reflexivity].
  apply Hmain in Hl. destruct Hl as [Hall _].
  unfold allDigits in Hall. rewrite Forall_forall in Hall.
  specialize (Hall c Hin). congruence.
Qed.

(** ** Day arithmetic of [Date] *)

Module DateFacts.
Import JsDate.

Lemma DayFromYear_mono (y1 y2 : Z) :
  y1 <= y2 -> DayFromYear y1 <= DayFromYear y2.
Proof.
  unfold DayFromYear. intros. Z.to_euclidean_division_equations; lia.
Qed.

Lemma DayFromYear_succ (y : Z) :
  DayFromYear (y + 1) = DayFromYear y + DaysInYear y.
Proof.
  unfold DayFromYear, DaysInYear.
  destruct (y mod 4 =? 0) eqn:H4; destruct (y mod 100 =? 0) eqn:H100;
    destruct (y mod 400 =? 0) eqn:H400; cbn [negb];
    rewrite ?Z.eqb_eq, ?Z.eqb_neq in *;
    Z.to_euclidean_division_equations; lia.
Qed.

Lemma DaysInYear_cases (y : Z) : DaysInYear y = 365 \/ DaysInYear y = 366.
Proof.
  unfold DaysInYear.
  destruct (y mod 4 =? 0), (y mod 100 =? 0), (y mod 400 =? 0); cbn; lia.
Qed.

Lemma isLeapYear_DaysInYear (y : Z) :
  isLeapYear y = (DaysInYear y =? 366).
Proof.
  unfold isLeapYear, DaysInYear.
  destruct (y mod 4 =? 0) eqn:H4; destruct (y mod 100 =? 0) eqn:H100;
    destruct (y mod 400 =? 0) eqn:H400; cbn; try reflexivity.
  all: rewrite ?Z.eqb_eq, ?Z.eqb_neq in *;
    exfalso; Z.to_euclidean_division_equations; lia.
Qed.

(** The year of a day is the one whose days contain it. *)
Lemma YearFromDay_bracket (d : Z) :
  DayFromYear (YearFromDay d) <= d < DayFromYear (YearFromDay d + 1).
Proof.
  unfold YearFromDay.
  set (y := 1970 + 400 * d / 146097).
  assert (DayFromYear (y - 1) <= d < DayFromYear (y + 2)) as Hest.
  { subst y. unfold DayFromYear. Z.to_euclidean_division_equations; lia. }
  destruct (d <? DayFromYear y) eqn:H1;
    [apply Z.ltb_lt in H1|apply Z.ltb_ge in H1].
  - replace (y - 1 + 1) with y by lia. lia.
  - destruct (DayFromYear (y + 1) <=? d) eqn:H2;
      [apply Z.leb_le in H2|apply Z.leb_gt in H2].
    + replace (y + 1 + 1) with (y + 2) by lia. lia.
    + lia.
Qed.

Lemma YearFromDay_unique (d y : Z) :
  DayFromYear y <= d < DayFromYear (y + 1) -> YearFromDay d = y.
Proof.
  intros H. pose proof (YearFromDay_bracket d) as B.
  destruct (Z.lt_trichotomy (YearFromDay d) y) as [Hlt|[Heq|Hgt]];
    [exfalso|exact Heq|exfalso].
  - pose proof (DayFromYear_mono (YearFromDay d + 1) y ltac:(lia)). lia.
  - pose proof (DayFromYear_mono (y + 1) (YearFromDay d) ltac:(lia)). lia.
Qed.

Lemma Day_MakeDate (n : Z) : Day (MakeDate n 0) = n.
Proof.
  unfold Day, MakeDate, msPerDay. rewrite Z.add_0_r.
  now rewrite Z.div_mul by discriminate.
Qed.

(** Comparing a local midnight with an instant compares the days. *)
Lemma MakeDate_gt (n t : Z) : MakeDate n 0 > t <-> Day t < n.
Proof.
  unfold Day, MakeDate, msPerDay.
  split; intros H; Z.to_euclidean_division_equations; lia.
Qed.

Lemma DayWithinYear_range (t : Z) :
  0 <= DayWithinYear t < DaysInYear (YearFromTime t).
Proof.
  unfold DayWithinYear, YearFromTime.
  pose proof (YearFromDay_bracket (Day t)) as B.
  rewrite DayFromYear_succ in B. lia.
Qed.

Ltac month_cases m :=
  let H := fresh "Hm" in
  assert (H : m = 1 \/ m = 2 \/ m = 3 \/ m = 4 \/ m = 5 \/ m = 6
              \/ m = 7 \/ m = 8 \/ m = 9 \/ m = 10 \/ m = 11 \/ m = 12)
    by lia;
  repeat (destruct H as [H | H]); subst m.

(** Evaluates the closed sums and tests that a case analysis on a month
    leaves behind, without unfolding arithmetic on variables. *)
Ltac calm :=
  repeat first
    [ progress change (365 =? 366) with false
    | progress change (366 =? 366) with true
    | progress change (0 + 1) with 1
    | match goal with
      | |- context [Z.pos ?p + 1] =>
          let v := eval vm_compute in (Z.pos p + 1) in
          change (Z.pos p + 1) with v
      | |- context [Z.pos ?p - 1] =>
          let v := eval vm_compute in (Z.pos p - 1) in
          change (Z.pos p - 1) with v
      end
    | progress cbv beta iota ].

Ltac split_ltb :=
  repeat match goal with
         | |- context [?a <? ?b] =>
             let H := fresh "Hc" in
             destruct (a <? b) eqn:H;
             [apply Z.ltb_lt in H|apply Z.ltb_ge in H]
         end.

Lemma MonthFromTime_range (t : Z) : 0 <= MonthFromTime t <= 11.
Proof. unfold MonthFromTime. split_ltb; lia. Qed.

Lemma leap_flag (y : Z) :
  (if DaysInYear y =? 366 then 1 else 0) = DaysInYear y - 365.
Proof. destruct (DaysInYear_cases y) as [-> | ->]; reflexivity. Qed.

(** The getters invert [MakeDay]. *)
Lemma MakeDay_getters (t : Z) :
  MakeDay (getFullYear t) (getMonth t) (getDate t) = Day t.
Proof.
  unfold getFullYear, getMonth, getDate, MakeDay.
  pose proof (MonthFromTime_range t) as Hm.
  rewrite Z.div_small, Z.mod_small, Z.add_0_r by lia.
  unfold daysBeforeMonth, DateFromTime.
  fold (InLeapYear t).
  unfold MonthFromTime in *.
  pose proof (DayWithinYear_range t) as Hr.
  unfold DayWithinYear in *.
  split_ltb; cbv beta iota; lia.
Qed.

Lemma getters_real (t : Z) :
  realCalendarDate (getFullYear t) (getMonth t + 1) (getDate t).
Proof.
  unfold realCalendarDate, getFullYear, getMonth, getDate.
  pose proof (MonthFromTime_range t) as Hm. split; [lia|].
  unfold daysInMonth, DateFromTime. rewrite isLeapYear_DaysInYear.
  pose proof (DayWithinYear_range t) as Hr.
  unfold MonthFromTime, InLeapYear in *.
  remember (DayWithinYear t) as w eqn:Ew. clear Ew.
  revert Hr Hm.
  destruct (DaysInYear_cases (YearFromTime t)) as [E|E]; rewrite E;
    calm; intros Hr Hm; split_ltb; calm; lia.
Qed.


Lemma MakeDay_expand (y m d : Z) :
  1 <= m <= 12 ->
  MakeDay y (m - 1) d = DayFromYear y + daysBeforeMonth y (m - 1) + d - 1.
Proof.
  intros Hm. unfold MakeDay.
  rewrite Z.div_small, Z.mod_small, Z.add_0_r by lia. reflexivity.
Qed.

(** A real calendar date falls on a day of its own year. *)
Lemma dayInYear_range (y m d : Z) :
  realCalendarDate y m d ->
  0 <= daysBeforeMonth y (m - 1) + d - 1 < DaysInYear y.
Proof.
  intros [Hm Hd]. unfold daysBeforeMonth. revert Hd.
  unfold daysInMonth. rewrite isLeapYear_DaysInYear.
  destruct (DaysInYear_cases y) as [E|E]; rewrite E;
    month_cases m; calm; lia.
Qed.

(** The getters read back a real calendar date from its local midnight. *)
Lemma getters_MakeDay (y m d : Z) :
  realCalendarDate y m d ->
  let t := MakeDate (MakeDay y (m - 1) d) 0 in
  getFullYear t = y /\ getMonth t = m - 1 /\ getDate t = d.
Proof.
  intros Hreal t.
  pose proof (dayInYear_range y m d Hreal) as Hw.
  destruct Hreal as [Hm Hd].
  assert (Hday : Day t = DayFromYear y + daysBeforeMonth y (m - 1) + d - 1).
  { subst t. now rewrite Day_MakeDate, MakeDay_expand. }
  assert (Hy : YearFromTime t = y).
  { unfold YearFromTime. apply YearFromDay_unique.
    rewrite DayFromYear_succ. lia. }
  assert (Hdwy : DayWithinYear t = daysBeforeMonth y (m - 1) + d - 1).
  { unfold DayWithinYear. rewrite Hy. lia. }
  split; [exact Hy|].
  unfold getMonth, getDate, DateFromTime, MonthFromTime, InLeapYear.
  rewrite Hy, Hdwy. clear Hday Hdwy Hy Hw t.
  revert Hd. unfold daysBeforeMonth, daysInMonth.
  rewrite isLeapYear_DaysInYear.
  destruct (DaysInYear_cases y) as [E|E]; rewrite E;
    month_cases m; calm; intros Hd;
    split_ltb; calm; lia.
Qed.

(** Day numbers grow with calendar dates. *)
Lemma MakeDay_lt (y1 m1 d1 y2 m2 d2 : Z) :
  realCalendarDate y1 m1 d1 -> realCalendarDate y2 m2 d2 ->
  laterDate (y2, m2, d2) (y1, m1, d1) ->
  MakeDay y1 (m1 - 1) d1 < MakeDay y2 (m2 - 1) d2.
Proof.
  intros R1 R2 Hlt.
  pose proof (dayInYear_range _ _ _ R1) as W1.
  pose proof (dayInYear_range _ _ _ R2) as W2.
  destruct R1 as [Hm1 Hd1], R2 as [Hm2 Hd2].
  rewrite !MakeDay_expand by assumption.
  cbv beta iota delta [laterDate] in Hlt. destruct Hlt as [Hy|[-> Hmd]].
  - pose proof (DayFromYear_mono (y1 + 1) y2 ltac:(lia)) as Hmono.
    rewrite DayFromYear_succ in Hmono. lia.
  - clear W1 W2. revert Hd1 Hd2 Hmd.
    unfold daysBeforeMonth, daysInMonth. rewrite isLeapYear_DaysInYear.
    destruct (DaysInYear_cases y2) as [E|E]; rewrite E;
      month_cases m1; month_cases m2; calm; lia.
Qed.

(** An instant falls on a later day exactly when its calendar date is
    later. *)
Lemma Day_lt_laterDate (t1 t2 : Z) :
  Day t1 < Day t2 <-> laterDate (dateOfInstant t2) (dateOfInstant t1).
Proof.
  pose proof (getters_real t1) as R1. pose proof (getters_real t2) as R2.
  pose proof (MakeDay_getters t1) as I1. pose proof (MakeDay_getters t2) as I2.
  replace (getMonth t1) with (getMonth t1 + 1 - 1) in I1 by lia.
  replace (getMonth t2) with (getMonth t2 + 1 - 1) in I2 by lia.
  unfold dateOfInstant.
  revert R1 I1 R2 I2.
  generalize (getFullYear t1) (getMonth t1 + 1) (getDate t1)
             (getFullYear t2) (getMonth t2 + 1) (getDate t2).
  intros y1 m1 d1 y2 m2 d2 R1 I1 R2 I2.
  split.
  - intros Hlt.
    assert (Hno : ~ laterDate (y1, m1, d1) (y2, m2, d2)).
    { intros L. pose proof (MakeDay_lt _ _ _ _ _ _ R2 R1 L). lia. }
    assert (Hne : (y1, m1, d1) <> (y2, m2, d2)).
    { intros [= -> -> ->]. lia. }
    cbv beta iota delta [laterDate] in *.
    destruct (Z.lt_trichotomy y1 y2) as [H|[H|H]]; [lia| |lia].
    destruct (Z.lt_trichotomy m1 m2) as [H'|[H'|H']]; [lia| |lia].
    destruct (Z.lt_trichotomy d1 d2) as [H''|[H''|H'']]; [lia| |lia].
    subst. now elim Hne.
  - intros Hlt. pose proof (MakeDay_lt _ _ _ _ _ _ R1 R2 Hlt). lia.
Qed.

End DateFacts.

(** ** The format check *)

Lemma nth_error_skipn_cons {A} (l : list A) (pos : nat) (c : A) :
  nth_error l pos = Some c -> skipn pos l = c :: skipn (S pos) l.
Proof.
  revert pos. induction l as [|a l IH]; intros [|pos] H; simpl in *;
    try discriminate.
  - now injection H as ->.
  - now apply IH.
Qed.

(** [\d{n}] from [pos]: the next [n] characters exist and are digits. *)
Lemma iter_ClassDigit (input : JsString.t) :
  forall (n pos : nat),
    (pos <= List.length input)%nat ->
    RegExp.iter n (RegExp.matchAt input RegExp.ClassDigit) pos =
    if (pos + n <=? List.length input)%nat
       && forallb isAsciiDigit (firstn n (skipn pos input))
    then Some (pos + n)%nat else None.
Proof.
  induction n as [|k IH]; intros pos Hpos.
  - cbn [RegExp.iter firstn forallb]. rewrite Nat.add_0_r.
    apply Nat.leb_le in Hpos. now rewrite Hpos.
  - cbn [RegExp.iter RegExp.matchAt].
    destruct (nth_error input pos) as [c|] eqn:Hnth.
    + assert (pos < List.length input)%nat as Hlt
          by (apply nth_error_Some; congruence).
      rewrite (nth_error_skipn_cons _ _ _ Hnth). cbn [firstn forallb].
      destruct (isAsciiDigit c).
      * rewrite IH by lia. cbn [andb].
        now replace (S pos + k)%nat with (pos + S k)%nat by lia.
      * cbn [andb]. now rewrite andb_false_r.
    + apply nth_error_None in Hnth.
      assert ((pos + S k <=? List.length input)%nat = false) as ->
          by (apply Nat.leb_gt; lia).
      reflexivity.
Qed.

Lemma existsb_none {A} (f : A -> bool) (l : list A) :
  (forall x, In x l -> f x = false) -> existsb f l = false.
Proof.
  intros H. destruct (existsb f l) eqn:E; [|reflexivity].
  apply existsb_exists in E. destruct E as (x & Hin & Hx).
  rewrite (H x Hin) in Hx. discriminate.
Qed.

Lemma matchAt_ID_REGEX (id : JsString.t) (pos : nat) :
  RegExp.matchAt id ID_REGEX pos =
  if Nat.eqb pos 0
  then match RegExp.iter 13 (RegExp.matchAt id RegExp.ClassDigit) pos with
       | Some p => if Nat.eqb p (List.length id) then Some p else None
       | None => None
       end
  else None.
Proof. destruct pos; reflexivity. Qed.

(** [/^\d{13}$/] accepts exactly the strings of 13 ASCII digits. *)
Lemma ID_REGEX_test (id : JsString.t) :
  RegExp.test ID_REGEX id = thirteenDigitsb id.
Proof.
  unfold RegExp.test, thirteenDigitsb.
  cbn [seq existsb].
  rewrite (existsb_none _ (seq 1 _)).
  2:{ intros x Hin. apply in_seq in Hin. rewrite matchAt_ID_REGEX.
      destruct x; [lia|reflexivity]. }
  rewrite orb_false_r, matchAt_ID_REGEX. cbn [Nat.eqb].
  rewrite iter_ClassDigit by lia. cbn [skipn Nat.add].
  destruct (Nat.eqb (List.length id) 13) eqn:E.
  - apply Nat.eqb_eq in E. rewrite firstn_all2 by lia. rewrite E.
    destruct (forallb isAsciiDigit id); reflexivity.
  - cbn [andb]. rewrite Nat.eqb_sym in E.
    destruct ((13 <=? List.length id)%nat
              && forallb isAsciiDigit (firstn 13 id)); [|reflexivity].
    now rewrite E.
Qed.

Lemma thirteenDigitsb_spec (id : JsString.t) :
  thirteenDigitsb id = true <-> thirteenDigits id.
Proof.
  unfold thirteenDigitsb, thirteenDigits, allDigits.
  now rewrite andb_true_iff, Nat.eqb_eq, forallb_forall, Forall_forall.
Qed.

(** A string of 13 digits, written out. *)
Lemma thirteenDigits_inv (id : JsString.t) :
  thirteenDigits id ->
  exists c0 c1 c2 c3 c4 c5 c6 c7 c8 c9 c10 c11 c12,
    id = [c0; c1; c2; c3; c4; c5; c6; c7; c8; c9; c10; c11; c12]
    /\ Forall (fun c => isAsciiDigit c = true)
              [c0; c1; c2; c3; c4; c5; c6; c7; c8; c9; c10; c11; c12].
Proof.
  intros [Hlen Hall].
  do 13 (destruct id as [|? id]; [discriminate|]).
  destruct id; [|discriminate].
  repeat eexists. exact Hall.
Qed.

(** ** White space *)

Lemma trimStart_split (s : JsString.t) :
  exists pre,
    s = pre ++ trimStart s
    /\ Forall (fun c => isWhiteSpace c = true) pre
    /\ (forall c, hd_error (trimStart s) = Some c -> isWhiteSpace c = false).
Proof.
  induction s as [|a s (pre & E & Hpre & Hhd)].
  - exists []. repeat split; [constructor|discriminate].
  - cbn [trimStart]. destruct (isWhiteSpace a) eqn:Ha.
    + exists (a :: pre). repeat split.
      * cbn. now f_equal.
      * now constructor.
      * exact Hhd.
    + exists []. repeat split; [constructor|].
      cbn. now intros c [= <-].
Qed.

(** [trim] removes the white space at both ends and nothing else. *)
Lemma trim_stripped (s : JsString.t) : stripped s (trim s).
Proof.
  unfold stripped, trim, trimEnd.
  destruct (trimStart_split s) as (pre & E1 & Hpre & Hhd1).
  destruct (trimStart_split (rev (trimStart s))) as (erp & E2 & Hpost & Hhd2).
  set (r := trimStart (rev (trimStart s))) in *.
  exists pre, (rev erp).
  assert (E3 : trimStart s = rev r ++ rev erp).
  { rewrite <- rev_app_distr, <- E2. now rewrite rev_involutive. }
  repeat split.
  - rewrite E1 at 1. now rewrite E3.
  - exact Hpre.
  - now apply Forall_rev.
  - intros c Hc. destruct r as [|x r'] eqn:Er.
    + discriminate.
    + apply Hhd1. rewrite E3.
      destruct (rev (x :: r')) eqn:Erev.
      * apply (f_equal (@List.length _)) in Erev.
        rewrite length_rev in Erev. discriminate.
      * exact Hc.
  - rewrite rev_involutive. exact Hhd2.
Qed.

(** A string with no white space at either end is its own trim. *)
Lemma trim_fixed (s : JsString.t) :
  (forall c, hd_error s = Some c -> isWhiteSpace c = false) ->
  (forall c, hd_error (rev s) = Some c -> isWhiteSpace c = false) ->
  trim s = s.
Proof.
  intros H1 H2. unfold trim, trimEnd.
  rewrite (trimStart_fixed s H1), (trimStart_fixed _ H2).
  apply rev_involutive.
Qed.

Lemma trim_idempotent (s : JsString.t) : trim (trim s) = trim s.
Proof.
  destruct (trim_stripped s) as (_ & _ & _ & _ & _ & H1 & H2).
  now apply trim_fixed.
Qed.

(** ** The date check *)

Lemma two_digits_range (a b : codeUnit) :
  isAsciiDigit a = true -> isAsciiDigit b = true ->
  0 <= decimalValue [digitValue a; digitValue b] <= 99.
Proof.
  intros Ha Hb. apply digitValue_range in Ha, Hb.
  unfold decimalValue. cbn [fold_left]. lia.
Qed.

Lemma resolveYear_centuryYear (now : JsDate.date) (yy : Z) :
  resolveYear now yy = centuryYear (JsDate.getFullYear now) yy.
Proof. reflexivity. Qed.

Lemma centuryYear_range (cy yy : Z) :
  0 <= yy <= 99 -> 1900 <= centuryYear cy yy <= 2099.
Proof. unfold centuryYear. destruct (2000 + yy <=? cy); lia. Qed.

Lemma make_midnight (y m d : Z) :
  1900 <= y -> JsDate.make y m d = JsDate.MakeDate (JsDate.MakeDay y m d) 0.
Proof.
  intros Hy. unfold JsDate.make.
  assert ((y <=? 99) = false) as -> by (apply Z.leb_gt; lia).
  now rewrite andb_false_r.
Qed.

(** What [parseDate] makes of the first six of 13 digits: either a
    rejection, for one of the four reasons of the specification, or the
    local midnight of the real, non-future calendar date they spell. *)
Lemma parseDate_spec (clk : Clock) (id : JsString.t) :
  thirteenDigits id ->
  let mm := monthField id in
  let dd := dayField id in
  let year :=
    centuryYear (JsDate.getFullYear (readResolveYear clk)) (yearField id) in
  let today := dateOfInstant (readParseDate clk) in
  (parseDate clk (extractSegments id) = None
   /\ ((mm < 1 \/ 12 < mm) \/ (dd < 1 \/ 31 < dd)
       \/ ~ realCalendarDate year mm dd
       \/ laterDate (year, mm, dd) today))
  \/ (parseDate clk (extractSegments id) = Some (midnight year mm dd)
      /\ realCalendarDate year mm dd
      /\ ~ laterDate (year, mm, dd) today
      /\ dateOfInstant (midnight year mm dd) = (year, mm, dd)).
Proof.
  intros H13.
  destruct (thirteenDigits_inv id H13)
    as (c0 & c1 & c2 & c3 & c4 & c5 & c6 & c7 & c8 & c9 & c10 & c11 & c12
        & -> & Hall).
  clear H13.
  pose proof Hall as Hall'.
  do 6 (let H := fresh "D" in
        pose proof (Forall_inv Hall') as H; cbv beta in H;
        apply Forall_inv_tail in Hall').
  clear Hall'.
  unfold monthField, dayField, yearField, field, parseDate, extractSegments,
    slice.
  cbn [firstn skipn Nat.sub yearPart monthPart dayPart List.map].
  rewrite !parseInt_digits
    by (try discriminate; repeat constructor; assumption).
  cbn [List.map].
  pose proof (two_digits_range c0 c1 D D0) as Hyy.
  pose proof (two_digits_range c2 c3 D1 D2) as Hmm.
  pose proof (two_digits_range c4 c5 D3 D4) as Hdd.
  set (yy := decimalValue [digitValue c0; digitValue c1]) in *.
  set (mm := decimalValue [digitValue c2; digitValue c3]) in *.
  set (dd := decimalValue [digitValue c4; digitValue c5]) in *.
  rewrite resolveYear_centuryYear.
  set (year := centuryYear _ yy).
  pose proof (centuryYear_range
                (JsDate.getFullYear (readResolveYear clk)) yy Hyy) as Hyear.
  fold year in Hyear.
  cbv zeta.
  destruct ((mm <? 1) || (mm >? 12)) eqn:Em.
  { left. split; [reflexivity|]. left.
    apply orb_true_iff in Em. destruct Em as [Em|Em];
      [apply Z.ltb_lt in Em|apply Z.gtb_lt in Em]; lia. }
  destruct ((dd <? 1) || (dd >? 31)) eqn:Ed.
  { left. split; [reflexivity|]. right. left.
    apply orb_true_iff in Ed. destruct Ed as [Ed|Ed];
      [apply Z.ltb_lt in Ed|apply Z.gtb_lt in Ed]; lia. }
  apply orb_false_iff in Em, Ed.
  destruct Em as [Em1 Em2], Ed as [Ed1 Ed2].
  apply Z.ltb_ge in Em1, Ed1.
  rewrite Z.gtb_ltb in Em2, Ed2. apply Z.ltb_ge in Em2, Ed2.
  rewrite make_midnight by lia.
  set (date := JsDate.MakeDate (JsDate.MakeDay year (mm - 1) dd) 0).
  destruct (Z_le_dec dd (daysInMonth year mm)) as [Hreal|Hunreal].
  - assert (R : realCalendarDate year mm dd) by (split; lia).
    destruct (DateFacts.getters_MakeDay year mm dd R) as (G1 & G2 & G3).
    fold date in G1, G2, G3.
    rewrite G1, G2, G3, !Z.eqb_refl. cbn [negb orb].
    assert (Hdate : dateOfInstant date = (year, mm, dd)).
    { unfold dateOfInstant. rewrite G1, G2, G3. f_equal. f_equal. lia. }
    pose proof (DateFacts.Day_lt_laterDate (readParseDate clk) date) as Hord.
    rewrite Hdate in Hord.
    pose proof (DateFacts.MakeDate_gt
                  (JsDate.MakeDay year (mm - 1) dd) (readParseDate clk)) as Hgt.
    fold date in Hgt.
    assert (Hday : JsDate.Day date = JsDate.MakeDay year (mm - 1) dd)
      by apply DateFacts.Day_MakeDate.
    rewrite <- Hday in Hgt.
    destruct (date >? readParseDate clk) eqn:Ecmp.
    + left. split; [reflexivity|]. do 3 right.
      apply Hord, Hgt. apply Z.gtb_lt in Ecmp. lia.
    + right. unfold midnight. rewrite make_midnight by lia. fold date.
      repeat split; try assumption; try lia.
      intros L. apply Hord, Hgt in L.
      rewrite Z.gtb_ltb in Ecmp. apply Z.ltb_ge in Ecmp. lia.
  - left.
    assert (Hfail : negb (JsDate.getFullYear date =? year)
                    || negb (JsDate.getMonth date =? mm - 1)
                    || negb (JsDate.getDate date =? dd) = true).
    { destruct (JsDate.getFullYear date =? year) eqn:E1; [|reflexivity].
      destruct (JsDate.getMonth date =? mm - 1) eqn:E2; [|reflexivity].
      destruct (JsDate.getDate date =? dd) eqn:E3; [|reflexivity].
      exfalso. apply Z.eqb_eq in E1, E2, E3.
      pose proof (DateFacts.getters_real date) as [_ R].
      rewrite E1, E2, E3 in R.
      replace (mm - 1 + 1) with mm in R by lia. lia. }
    rewrite Hfail. split; [reflexivity|].
    right. right. left. intros [_ R]. lia.
Qed.

(** ** The shape of [parse] *)

Lemma strEq_char (c : codeUnit) (d : codeUnit) :
  strEq [c] [d] = N.eqb c d.
Proof. cbn [strEq]. apply andb_true_r. Qed.

(** [parseLogged], and so [parse], in terms of the four checks. *)
Lemma parseLogged_eq (clk : Clock) (s : JsString.t) :
  parseLogged clk s =
  let id := trim s in
  if negb (formatOk id) then ([FormatCheck], invalid id INVALID_FORMAT)
  else
    match parseDate clk (extractSegments id) with
    | None => ([FormatCheck; DateCheck], invalid id INVALID_DATE)
    | Some dob =>
        if negb (citizenshipOk id)
        then ([FormatCheck; DateCheck; CitizenshipCheck],
              invalid id INVALID_CITIZENSHIP_DIGIT)
        else if negb (checksumOk id)
             then (checkOrder, invalid id INVALID_CHECKSUM)
             else (checkOrder, Valid (parsedOf clk id dob))
    end.
Proof.
  unfold parseLogged, formatOk. cbv zeta. rewrite ID_REGEX_test.
  destruct (thirteenDigitsb (trim s)) eqn:F; [|reflexivity].
  apply thirteenDigitsb_spec in F.
  pose proof F as F'.
  apply thirteenDigits_inv in F'.
  destruct F' as (c0 & c1 & c2 & c3 & c4 & c5 & c6 & c7 & c8 & c9 & c10 & c11
                 & c12 & E & Hall).
  rewrite E in *. cbn [negb].
  destruct (parseDate clk _) as [dob|]; [|reflexivity].
  unfold citizenshipOk, citizenshipChar, checksumOk, parsedOf, citizenDigit,
    citizenshipChar.
  cbn [nth_error].
  change (citizenshipDigit (extractSegments
            [c0; c1; c2; c3; c4; c5; c6; c7; c8; c9; c10; c11; c12]))
    with [c10].
  change (ofString "0") with [48%N].
  change (ofString "1") with [49%N].
  change (ofString "2") with [50%N].
  rewrite !strEq_char.
  assert (G : parseInt (genderSequence (extractSegments
                [c0; c1; c2; c3; c4; c5; c6; c7; c8; c9; c10; c11; c12]))
              = Some (genderField
                [c0; c1; c2; c3; c4; c5; c6; c7; c8; c9; c10; c11; c12])).
  { change (genderSequence _) with [c6; c7; c8; c9].
    do 6 apply Forall_inv_tail in Hall.
    rewrite parseInt_digits; [reflexivity|discriminate|].
    pose proof (Forall_inv Hall).
    do 3 (apply Forall_inv_tail in Hall; pose proof (Forall_inv Hall)).
    repeat constructor; assumption. }
  rewrite G. cbn [genderOf app].
  destruct (N.eqb c10 48), (N.eqb c10 49), (N.eqb c10 50); cbn [negb andb orb];
    try reflexivity.
Qed.

Lemma parseLogged_result (clk : Clock) (s : JsString.t) :
  snd (parseLogged clk s) = parse clk s.
Proof.
  unfold parseLogged, parse. cbv zeta.
  destruct (negb (RegExp.test ID_REGEX (trim s))); [reflexivity|].
  destruct (parseDate clk _); [|reflexivity].
  destruct (_ && _); [reflexivity|].
  destruct (negb (luhn _)); reflexivity.
Qed.

Lemma parse_eq (clk : Clock) (s : JsString.t) :
  parse clk s =
  let id := trim s in
  if negb (formatOk id) then invalid id INVALID_FORMAT
  else
    match parseDate clk (extractSegments id) with
    | None => invalid id INVALID_DATE
    | Some dob =>
        if negb (citizenshipOk id) then invalid id INVALID_CITIZENSHIP_DIGIT
        else if negb (checksumOk id) then invalid id INVALID_CHECKSUM
        else Valid (parsedOf clk id dob)
    end.
Proof.
  rewrite <- parseLogged_result, parseLogged_eq. cbv zeta.
  destruct (negb (formatOk _)); [reflexivity|].
  destruct (parseDate clk _); [|reflexivity].
  destruct (negb (citizenshipOk _)); [reflexivity|].
  destruct (negb (checksumOk _)); reflexivity.
Qed.

Lemma slice_firstn (id : JsString.t) (a b n : nat) :
  (a <= b <= n)%nat -> slice (firstn n id) a b = slice id a b.
Proof.
  intros H. unfold slice.
  rewrite skipn_firstn_comm, firstn_firstn. f_equal. lia.
Qed.

(** The date check reads the first six characters only. *)
Lemma dateOk_eq (clk : Clock) (id : JsString.t) :
  dateOk clk id = RegExp.isSome (parseDate clk (extractSegments id)).
Proof.
  unfold dateOk, parseDate.
  cbn [yearPart monthPart dayPart extractSegments].
  now rewrite !slice_firstn by lia.
Qed.

Lemma trimStart_ws_app (pre x : JsString.t) :
  Forall (fun c => isWhiteSpace c = true) pre ->
  trimStart (pre ++ x) = trimStart x.
Proof.
  induction 1 as [|c pre Hc _ IH]; [reflexivity|].
  cbn [app trimStart]. now rewrite Hc.
Qed.

Lemma trimStart_ws (x : JsString.t) :
  Forall (fun c => isWhiteSpace c = true) x -> trimStart x = [].
Proof.
  intros H. rewrite <- (app_nil_r x). now rewrite trimStart_ws_app.
Qed.

(** Stripping the white space at both ends has one result, [trim s]. *)
Lemma stripped_unique (s r : JsString.t) : stripped s r -> trim s = r.
Proof.
  intros (pre & post & -> & Hpre & Hpost & Hhd & Htl).
  unfold trim, trimEnd. rewrite trimStart_ws_app by assumption.
  destruct r as [|c r'].
  - cbn [app]. now rewrite (trimStart_ws post).
  - rewrite (trimStart_fixed ((c :: r') ++ post))
      by (cbn; intros c' [= <-]; now apply Hhd).
    rewrite rev_app_distr.
    rewrite (trimStart_ws_app (rev post)) by now apply Forall_rev.
    rewrite (trimStart_fixed (rev (c :: r'))) by assumption.
    apply rev_involutive.
Qed.

(** ** The claims *)

(** C1. On every input [parse] evaluates the checks in the fixed order
    format, date, citizenship digit, checksum, up to and including the
    first that fails, and no further; the outcome is then [Invalid] with
    the reason of that check, and [Valid] when none fails.  [parse] is a
    total function, so it always returns exactly one outcome. *)
Theorem parse_first_failure (clk : Clock) (s : JsString.t) :
  let id := trim s in
  let '(ran, failed) := firstFailure clk id checkOrder in
  parseLogged clk s = (ran, parse clk s)
  /\ match failed with
     | Some c => parse clk s = invalid id (reasonOf c)
     | None => exists p, parse clk s = Valid p
     end.
Proof.
  cbv zeta. rewrite parse_eq, parseLogged_eq. cbv zeta.
  cbn [firstFailure checkOrder passes]. rewrite dateOk_eq.
  destruct (formatOk (trim s)); cbn [negb]; [|split; reflexivity].
  destruct (parseDate clk _); cbn [RegExp.isSome]; [|split; reflexivity].
  destruct (citizenshipOk (trim s)); cbn [negb]; [|split; reflexivity].
  destruct (checksumOk (trim s)); cbn [negb]; split; try reflexivity.
  eexists; reflexivity.
Qed.

Lemma daysInMonth_le_31 (y m : Z) : daysInMonth y m <= 31.
Proof.
  unfold daysInMonth.
  destruct m as [|p|p]; [cbn; lia| |cbn; lia].
  do 4 (try destruct p as [p|p|]); cbn; try lia;
    destruct (isLeapYear y); lia.
Qed.

(** The date check on local time values, that is, in a zone of fixed
    offset: on a trimmed input of 13 ASCII digits, [parse] answers
    [INVALID_DATE] exactly when the month is outside 1..12, or the day is
    outside 1..31, or year, month and day are no real calendar date, the
    year being 2000 + YY when that does not exceed the current year and
    1900 + YY otherwise, or that date is strictly after the current
    date.  ([parse_invalid_date_iff_fixed_offset] states it with the
    zone; [parse_rejects_skipped_local_day] shows that it fails in a zone
    that skipped a day.) *)
Theorem parse_invalid_date_iff (clk : Clock) (s : JsString.t) :
  thirteenDigits (trim s) ->
  let id := trim s in
  let mm := monthField id in
  let dd := dayField id in
  let year :=
    centuryYear (JsDate.getFullYear (readResolveYear clk)) (yearField id) in
  let today := dateOfInstant (readParseDate clk) in
  resultReason (parse clk s) = Some INVALID_DATE
  <-> ((mm < 1 \/ 12 < mm) \/ (dd < 1 \/ 31 < dd)
       \/ ~ realCalendarDate year mm dd
       \/ laterDate (year, mm, dd) today).
Proof.
  intros H13. cbv zeta.
  pose proof (parseDate_spec clk (trim s) H13) as Hpd. cbv zeta in Hpd.
  rewrite parse_eq. cbv zeta.
  apply thirteenDigitsb_spec in H13. unfold formatOk. rewrite H13.
  cbn [negb].
  destruct Hpd as [[-> Hbad]|(-> & Hreal & Hnot & _)].
  - split; [intros _; exact Hbad|reflexivity].
  - split.
    + destruct (negb (citizenshipOk _)); [discriminate|].
      destruct (negb (checksumOk _)); discriminate.
    + pose proof (daysInMonth_le_31
                    (centuryYear (JsDate.getFullYear (readResolveYear clk))
                                 (yearField (trim s)))
                    (monthField (trim s))) as H31.
      destruct Hreal as [Hm Hd].
      intros [H|[H|[H|H]]]; try lia.
      * elim H. split; assumption.
      * contradiction.
Qed.

(** C4. When the input, stripped of the white space at its two ends, is
    not exactly 13 ASCII digits (empty, too short, too long, or with a
    character that is no digit), [parse] answers [INVALID_FORMAT]. *)
Theorem parse_invalid_format (clk : Clock) (s r : JsString.t) :
  stripped s r ->
  ~ thirteenDigits r ->
  parse clk s = invalid r INVALID_FORMAT.
Proof.
  intros Hs Hn. apply stripped_unique in Hs. subst r.
  rewrite parse_eq. cbv zeta. unfold formatOk.
  destruct (thirteenDigitsb (trim s)) eqn:F; [|reflexivity].
  apply thirteenDigitsb_spec in F. contradiction.
Qed.

(** What a [Valid] outcome tells about the input. *)
Lemma parse_valid_inv (clk : Clock) (s : JsString.t) (p : ParsedID) :
  parse clk s = Valid p ->
  thirteenDigits (trim s)
  /\ exists dob,
      parseDate clk (extractSegments (trim s)) = Some dob
      /\ citizenshipOk (trim s) = true
      /\ checksumOk (trim s) = true
      /\ p = parsedOf clk (trim s) dob.
Proof.
  rewrite parse_eq. cbv zeta. unfold formatOk.
  destruct (thirteenDigitsb (trim s)) eqn:F; [|discriminate].
  apply thirteenDigitsb_spec in F. cbn [negb].
  destruct (parseDate clk _) as [dob|]; [|discriminate].
  destruct (citizenshipOk _); [|discriminate].
  destruct (checksumOk _); [|discriminate].
  cbn [negb]. intros [= <-]. split; [exact F|].
  exists dob. repeat split.
Qed.

(** Under the format check the four numeric fields are read in full:
    [parseInt] never answers [NaN]. *)
Lemma parseInt_fields (id : JsString.t) :
  thirteenDigits id ->
  parseInt (yearPart (extractSegments id)) = Some (yearField id)
  /\ parseInt (monthPart (extractSegments id)) = Some (monthField id)
  /\ parseInt (dayPart (extractSegments id)) = Some (dayField id)
  /\ parseInt (genderSequence (extractSegments id)) = Some (genderField id).
Proof.
  intros H13.
  destruct (thirteenDigits_inv id H13)
    as (c0 & c1 & c2 & c3 & c4 & c5 & c6 & c7 & c8 & c9 & c10 & c11 & c12
        & -> & Hall).
  pose proof Hall as Hall'.
  do 10 (let H := fresh "D" in
         pose proof (Forall_inv Hall') as H; cbv beta in H;
         apply Forall_inv_tail in Hall').
  unfold yearField, monthField, dayField, genderField, field, extractSegments,
    slice.
  cbn [firstn skipn Nat.sub yearPart monthPart dayPart genderSequence].
  rewrite !parseInt_digits
    by (try discriminate; repeat constructor; assumption).
  repeat split.
Qed.

(** C5. On a [Valid] outcome the gender is [male] exactly when the
    four-digit gender sequence, read as an integer, is at least 5000, and
    [female] otherwise; the citizenship is [citizen] exactly when the
    citizenship digit is ["0"], the digits ["1"] and ["2"] both giving
    [permanent_resident]; and [isCitizen] is true exactly when the digit
    is ["0"]. *)
Theorem parse_derived_fields (clk : Clock) (s : JsString.t) (p : ParsedID) :
  parse clk s = Valid p ->
  let id := trim s in
  parseInt (genderSequence (segments p)) = Some (genderField id)
  /\ citizenshipDigit (segments p) = slice id 10 11
  /\ (gender p = male <-> 5000 <= genderField id)
  /\ (gender p = female <-> genderField id < 5000)
  /\ (citizenship p = citizen <-> citizenshipChar id = Some 48%N)
  /\ (citizenshipChar id = Some 49%N \/ citizenshipChar id = Some 50%N ->
      citizenship p = permanent_resident)
  /\ (citizenship p = permanent_resident ->
      citizenshipChar id = Some 49%N \/ citizenshipChar id = Some 50%N)
  /\ (isCitizen p = true <-> citizenshipChar id = Some 48%N).
Proof.
  intros Hp. cbv zeta.
  destruct (parse_valid_inv clk s p Hp) as (H13 & dob & _ & Hc & _ & ->).
  destruct (parseInt_fields (trim s) H13) as (_ & _ & _ & Hg).
  cbn [parsedOf segments gender citizenship isCitizen].
  split; [exact Hg|]. split; [reflexivity|].
  unfold citizenshipOk, citizenDigit in *.
  destruct (citizenshipChar (trim s)) as [c|]; [|discriminate].
  destruct (genderField (trim s) >=? 5000) eqn:G;
    [rewrite Z.geb_le in G|rewrite Z.geb_leb in G; apply Z.leb_gt in G].
  all: destruct (N.eqb c 48) eqn:E48;
    [apply N.eqb_eq in E48; subst c|apply N.eqb_neq in E48].
  all: repeat split; intros; try discriminate; try lia; try reflexivity;
    try congruence.
  all: try (match goal with H : _ \/ _ |- _ => destruct H; discriminate end).
  all: cbn [orb] in Hc; apply orb_true_iff in Hc;
    destruct Hc as [Hc|Hc]; apply N.eqb_eq in Hc; subst c; auto.
Qed.



(** C7. [isValid] is the [valid] flag of [parse], and each accessor
    returns the matching field of [parse] on the same input when the
    outcome is [Valid] and [null] when it is [Invalid]. *)
Theorem accessors_agree_with_parse (clk : Clock) (s : JsString.t) :
  isValid clk s = valid (parse clk s)
  /\ (forall p, parse clk s = Valid p ->
        isValid clk s = true
        /\ getDateOfBirth clk s = Some (dateOfBirth p)
        /\ getGender clk s = Some (gender p)
        /\ getAge clk s = Some (age p)
        /\ getCitizenship clk s = Some (citizenship p))
  /\ (forall i, parse clk s = Invalid i ->
        isValid clk s = false
        /\ getDateOfBirth clk s = None
        /\ getGender clk s = None
        /\ getAge clk s = None
        /\ getCitizenship clk s = None).
Proof.
  unfold isValid, getDateOfBirth, getGender, getAge, getCitizenship.
  split; [reflexivity|].
  split; intros r Hr; rewrite Hr; repeat split.
Qed.

(** C8. On a [Valid] outcome the seven segments have the widths 2, 2, 2,
    4, 1, 1 and 1 and, put together in that order, give back the trimmed
    input; an [Invalid] outcome carries no segments. *)
Theorem parse_segments (clk : Clock) (s : JsString.t) :
  (forall p, parse clk s = Valid p ->
     let g := segments p in
     List.length (yearPart g) = 2%nat
     /\ List.length (monthPart g) = 2%nat
     /\ List.length (dayPart g) = 2%nat
     /\ List.length (genderSequence g) = 4%nat
     /\ List.length (citizenshipDigit g) = 1%nat
     /\ List.length (legacyDigit g) = 1%nat
     /\ List.length (checksumDigit g) = 1%nat
     /\ yearPart g ++ monthPart g ++ dayPart g ++ genderSequence g
        ++ citizenshipDigit g ++ legacyDigit g ++ checksumDigit g = trim s
     /\ resultSegments (parse clk s) = Some g)
  /\ (forall i, parse clk s = Invalid i ->
        resultSegments (parse clk s) = None).
Proof.
  split.
  - intros p Hp. cbv zeta.
    destruct (parse_valid_inv clk s p Hp) as (H13 & dob & _ & _ & _ & E).
    rewrite Hp. subst p. cbn [parsedOf segments resultSegments].
    destruct (thirteenDigits_inv _ H13)
      as (c0 & c1 & c2 & c3 & c4 & c5 & c6 & c7 & c8 & c9 & c10 & c11 & c12
          & -> & _).
    repeat split.
  - intros i Hi. now rewrite Hi.
Qed.

Lemma parse_idNumber (clk : Clock) (s : JsString.t) :
  resultIdNumber (parse clk s) = trim s.
Proof.
  rewrite parse_eq. cbv zeta.
  destruct (negb (formatOk _)); [reflexivity|].
  destruct (parseDate clk _); [|reflexivity].
  destruct (negb (citizenshipOk _)); [reflexivity|].
  destruct (negb (checksumOk _)); reflexivity.
Qed.

(** [parse] depends on its input through [trim] only. *)
Lemma parse_trim (clk : Clock) (s : JsString.t) :
  parse clk (trim s) = parse clk s.
Proof. unfold parse. now rewrite trim_idempotent. Qed.

(** C9. The [idNumber] stored in either variant of the outcome is the
    input without its leading and trailing white space; and, the clock
    giving the same readings in both calls (as a fixed current date
    does), parsing the stored [idNumber] of a [Valid] outcome gives that
    same outcome again. *)
Theorem parse_idNumber_roundtrip (clk : Clock) (s : JsString.t) :
  stripped s (resultIdNumber (parse clk s))
  /\ (forall r, stripped s r -> resultIdNumber (parse clk s) = r)
  /\ (forall p, parse clk s = Valid p ->
        idNumber p = trim s /\ parse clk (idNumber p) = Valid p)
  /\ (forall i, parse clk s = Invalid i -> invalidIdNumber i = trim s).
Proof.
  pose proof (parse_idNumber clk s) as Hid.
  split; [rewrite Hid; apply trim_stripped|].
  split; [intros r Hr; rewrite Hid; now apply stripped_unique|].
  split.
  - intros p Hp. rewrite Hp in Hid. cbn [resultIdNumber] in Hid.
    split; [exact Hid|]. now rewrite Hid, parse_trim.
  - intros i Hi. now rewrite Hi in Hid.
Qed.

(** C10. When the trimmed input passes the format check, the integer
    parses of the year, month, day and gender-sequence segments are
    numbers, never [NaN]: [parseDate] cannot leave through its [isNaN]
    guard, and on a [Valid] outcome the gender comparison is made on a
    number. *)
Theorem parseInt_segments_not_NaN (clk : Clock) (s : JsString.t) :
  thirteenDigits (trim s) ->
  let g := extractSegments (trim s) in
  (exists yy mm dd gs,
      parseInt (yearPart g) = Some yy
      /\ parseInt (monthPart g) = Some mm
      /\ parseInt (dayPart g) = Some dd
      /\ parseInt (genderSequence g) = Some gs
      /\ 0 <= yy <= 99 /\ 0 <= mm <= 99 /\ 0 <= dd <= 99 /\ 0 <= gs <= 9999)
  /\ (forall p, parse clk s = Valid p ->
        segments p = g
        /\ exists gs, parseInt (genderSequence (segments p)) = Some gs
                      /\ gender p = if gs >=? 5000 then male else female).
Proof.
  intros H13. cbv zeta.
  destruct (parseInt_fields (trim s) H13) as (Hy & Hm & Hd & Hg).
  split.
  - exists (yearField (trim s)), (monthField (trim s)), (dayField (trim s)),
      (genderField (trim s)).
    repeat (split; [assumption|]).
    destruct (thirteenDigits_inv _ H13)
      as (c0 & c1 & c2 & c3 & c4 & c5 & c6 & c7 & c8 & c9 & c10 & c11 & c12
          & -> & Hall).
    do 10 (let H := fresh "D" in
           pose proof (Forall_inv Hall) as H; cbv beta in H;
           apply digitValue_range in H;
           apply Forall_inv_tail in Hall).
    unfold yearField, monthField, dayField, genderField, field, decimalValue.
    cbn [firstn skipn List.map fold_left]. lia.
  - intros p Hp.
    destruct (parse_valid_inv clk s p Hp) as (_ & dob & _ & _ & _ & ->).
    cbn [parsedOf segments gender]. split; [reflexivity|].
    exists (genderField (trim s)). split; [exact Hg|reflexivity].
Qed.

(** ** The claims at concrete inputs *)

Lemma luhn_correct_witness :
  luhn exampleId = true /\ luhn (ofString "900104981808A") = false.
Proof.
  destruct luhn_correct as (Hiff & _ & Hnon).
  split.
  - apply Hiff. split; [repeat constructor|reflexivity].
  - apply (Hnon _ 65%N); [|reflexivity].
    vm_compute. tauto.
Defined.

Lemma parse_invalid_format_witness :
  parse exampleClock (ofString "  900104981808 ")
  = invalid (ofString "900104981808") INVALID_FORMAT.
Proof.
  apply parse_invalid_format.
  - exists (ofString "  "), (ofString " ").
    split; [reflexivity|].
    split; [repeat constructor|].
    split; [repeat constructor|].
    split; intros c [= <-]; reflexivity.
  - intros [Hlen _]. discriminate Hlen.
Defined.

Lemma parse_derived_fields_witness :
  parse exampleClock exampleId = Valid exampleParsed
  /\ gender exampleParsed = male
  /\ citizenship exampleParsed = citizen
  /\ isCitizen exampleParsed = true.
Proof.
  assert (H : parse exampleClock exampleId = Valid exampleParsed)
    by (vm_compute; reflexivity).
  destruct (parse_derived_fields exampleClock exampleId exampleParsed H)
    as (_ & _ & Hmale & _ & Hcit & _ & _ & Hflag).
  split; [exact H|].
  split; [apply Hmale; vm_compute; discriminate|].
  split; [apply Hcit; reflexivity|apply Hflag; reflexivity].
Defined.


Lemma parseInt_segments_not_NaN_witness :
  exists yy mm dd gs,
    parseInt (yearPart (extractSegments (trim exampleId))) = Some yy
    /\ parseInt (monthPart (extractSegments (trim exampleId))) = Some mm
    /\ parseInt (dayPart (extractSegments (trim exampleId))) = Some dd
    /\ parseInt (genderSequence (extractSegments (trim exampleId))) = Some gs
    /\ 0 <= yy <= 99 /\ 0 <= mm <= 99 /\ 0 <= dd <= 99 /\ 0 <= gs <= 9999.
Proof.
  assert (H : thirteenDigits (trim exampleId))
    by (apply thirteenDigitsb_spec; reflexivity).
  exact (proj1 (parseInt_segments_not_NaN exampleClock exampleId H)).
Defined.

(** ** The parser on the literal inputs of the test suite *)

Example parse_valid_male_citizen :
  parse exampleClock (ofString "9001049818080") =
  Valid {| idNumber := ofString "9001049818080";
           dateOfBirth := midnight 1990 1 4;
           age := 35;
           gender := male;
           citizenship := citizen;
           isCitizen := true;
           segments :=
             {| yearPart := ofString "90";
                monthPart := ofString "01";
                dayPart := ofString "04";
                genderSequence := ofString "9818";
                citizenshipDigit := ofString "0";
                legacyDigit := ofString "8";
                checksumDigit := ofString "0" |} |}.
Proof. vm_compute. reflexivity. Qed.

Example parse_trims_input :
  parseLogged exampleClock (ofString "  9001049818080  ") =
  (checkOrder, Valid exampleParsed).
Proof. vm_compute. reflexivity. Qed.

Example parse_wrong_check_digit :
  parseLogged exampleClock (ofString "9001049818081") =
  (checkOrder, invalid (ofString "9001049818081") INVALID_CHECKSUM).
Proof. vm_compute. reflexivity. Qed.

Example parse_twelve_digits :
  parseLogged exampleClock (ofString "900104981808") =
  ([FormatCheck], invalid (ofString "900104981808") INVALID_FORMAT).
Proof. vm_compute. reflexivity. Qed.

Example parse_letter_O :
  parse exampleClock (ofString "9001049818O80") =
  invalid (ofString "9001049818O80") INVALID_FORMAT.
Proof. vm_compute. reflexivity. Qed.

Example parse_month_13 :
  parseLogged exampleClock (ofString "9013049818089") =
  ([FormatCheck; DateCheck],
   invalid (ofString "9013049818089") INVALID_DATE).
Proof. vm_compute. reflexivity. Qed.

Example parse_day_32 :
  parse exampleClock (ofString "9001329818089") =
  invalid (ofString "9001329818089") INVALID_DATE.
Proof. vm_compute. reflexivity. Qed.

Example parse_feb_30 :
  parse exampleClock (ofString "9002309818089") =
  invalid (ofString "9002309818089") INVALID_DATE.
Proof. vm_compute. reflexivity. Qed.

Example parse_citizenship_5 :
  parseLogged exampleClock (ofString "9001049818580") =
  ([FormatCheck; DateCheck; CitizenshipCheck],
   invalid (ofString "9001049818580") INVALID_CITIZENSHIP_DIGIT).
Proof. vm_compute. reflexivity. Qed.

(** A birth date in the future of the clock is rejected; the day of the
    clock itself is accepted, at age 0. *)
Example parse_born_tomorrow :
  parse exampleClock (ofString "2506161234087") =
  invalid (ofString "2506161234087") INVALID_DATE.
Proof. vm_compute. reflexivity. Qed.

Example parse_born_today :
  getAge exampleClock (ofString "2506151234089") = Some 0.
Proof. vm_compute. reflexivity. Qed.

(** 29 February exists in 2000 and not in 1901 (the clock standing in
    2025, "01" is read as 2001, which has no such day either). *)
Example parse_leap_day :
  getDateOfBirth exampleClock (ofString "0002295000083")
  = Some (midnight 2000 2 29)
  /\ getDateOfBirth exampleClock (ofString "0102295000081") = None.
Proof. vm_compute. split; reflexivity. Qed.

(** Citizenship digits 1 and 2 both give a permanent resident. *)
Example parse_permanent_resident :
  getCitizenship exampleClock (ofString "8001015009186")
  = Some permanent_resident
  /\ getCitizenship exampleClock (ofString "8001015009285")
     = Some permanent_resident.
Proof. vm_compute. split; reflexivity. Qed.

(** Two literals that the test suite takes for a valid female citizen and
    a valid permanent resident.  The check digit of the first does not
    satisfy [luhn], and the citizenship digit of the second is ["0"]. *)
Example parse_test_female_literal :
  parse exampleClock (ofString "7805050050083") =
  invalid (ofString "7805050050083") INVALID_CHECKSUM.
Proof. vm_compute. reflexivity. Qed.

Example parse_test_resident_literal :
  getCitizenship exampleClock (ofString "8001015009087") = Some citizen.
Proof. vm_compute. reflexivity. Qed.

(** The day arithmetic on known days. *)
Example epoch_day :
  JsDate.MakeDay 1970 0 1 = 0
  /\ JsDate.MakeDay 2000 2 1 = 11017
  /\ dateOfInstant (-1) = (1969, 12, 31)
  /\ dateOfInstant (midnight 2024 2 29) = (2024, 2, 29)
  /\ dateOfInstant (midnight 2023 2 29) = (2023, 3, 1)
  /\ dateOfInstant (midnight 1900 2 29) = (1900, 3, 1).
Proof. vm_compute. repeat split. Qed.

(* ================================================================== *)
(** * Further properties *)

(** ** What the Luhn check detects *)

Lemma luhn_true_iff (s : JsString.t) :
  luhn s = true <-> allDigits s /\ weightedSum s mod 10 = 0.
Proof.
  unfold luhn, weightedSum. change false with (Nat.odd 0).
  rewrite luhn_loop_spec by lia.
  now rewrite firstn_all, Z.add_0_l.
Qed.

Lemma weightedSumFrom_app (k : nat) (l1 l2 : list Z) :
  weightedSumFrom k (l1 ++ l2)
  = weightedSumFrom k l1 + weightedSumFrom (k + List.length l1) l2.
Proof.
  revert k. induction l1 as [|d l1 IH]; intros k; cbn [app weightedSumFrom].
  - rewrite Nat.add_0_r. cbn [List.length]. lia.
  - rewrite IH. cbn [List.length].
    replace (S k + List.length l1)%nat with (k + S (List.length l1))%nat
      by lia.
    lia.
Qed.

(** The weighted sum, split at one character: the characters to its
    right, its own contribution, the characters to its left. *)
Lemma weightedSum_split (pre post : JsString.t) (c : codeUnit) :
  weightedSum (pre ++ c :: post)
  = weightedSumFrom 0 (rev (List.map digitValue post))
    + weightAt (List.length post) (digitValue c)
    + weightedSumFrom (S (List.length post)) (rev (List.map digitValue pre)).
Proof.
  unfold weightedSum.
  rewrite map_app, rev_app_distr. cbn [List.map rev].
  rewrite <- app_assoc. cbn [app].
  rewrite weightedSumFrom_app. cbn [weightedSumFrom].
  rewrite length_rev, length_map. cbn [Nat.add]. lia.
Qed.

Lemma allDigits_split (pre post : JsString.t) (c : codeUnit) :
  allDigits (pre ++ c :: post)
  <-> allDigits pre /\ isAsciiDigit c = true /\ allDigits post.
Proof.
  unfold allDigits. rewrite Forall_app. split.
  - intros [H1 H2]. repeat split; try assumption.
    + now apply Forall_inv in H2.
    + now apply Forall_inv_tail in H2.
  - intros (H1 & H2 & H3). split; [assumption|now constructor].
Qed.

Lemma digitValue_inj (c c' : codeUnit) :
  digitValue c = digitValue c' -> c = c'.
Proof. unfold digitValue. lia. Qed.

Lemma weightAt_range (k : nat) (c : codeUnit) :
  isAsciiDigit c = true -> 0 <= weightAt k (digitValue c) <= 9.
Proof.
  intros H. unfold weightAt. destruct (Nat.odd k);
    digit_cases H; vm_compute; split; discriminate.
Qed.

(** Doubling with 9 cast out permutes the ten digits, so each position
    tells any two digits apart. *)
Lemma weightAt_inj (k : nat) (c c' : codeUnit) :
  isAsciiDigit c = true -> isAsciiDigit c' = true ->
  weightAt k (digitValue c) = weightAt k (digitValue c') -> c = c'.
Proof.
  intros H H'. unfold weightAt. destruct (Nat.odd k).
  - digit_cases H; digit_cases H'; vm_compute; intros E;
      try reflexivity; discriminate E.
  - apply digitValue_inj.
Qed.

Lemma mod10_shift (a x y : Z) :
  (a + x) mod 10 = 0 -> (a + y) mod 10 = 0 ->
  -10 < x - y < 10 -> x = y.
Proof. intros H1 H2 H3. Z.to_euclidean_division_equations. lia. Qed.

(** Two strings that differ in one character are not both accepted. *)
Lemma luhn_single_char (pre post : JsString.t) (c c' : codeUnit) :
  luhn (pre ++ c :: post) = true ->
  luhn (pre ++ c' :: post) = true ->
  c' = c.
Proof.
  rewrite !luhn_true_iff, !allDigits_split, !weightedSum_split.
  intros [(_ & Hc & _) H1] [(_ & Hc' & _) H2].
  pose proof (weightAt_range (List.length post) c Hc) as R.
  pose proof (weightAt_range (List.length post) c' Hc') as R'.
  apply (weightAt_inj (List.length post)); try assumption.
  set (A := weightedSumFrom 0 _) in *.
  set (B := weightedSumFrom (S _) _) in *.
  apply (mod10_shift (A + B)); [| |lia].
  - rewrite <- H2. f_equal. lia.
  - rewrite <- H1. f_equal. lia.
Qed.

(** X1. [luhn] detects every single-character error: when a string is
    accepted, replacing any one of its characters by a different
    character, digit or not, gives a string that is rejected. *)
Theorem luhn_detects_substitution
        (pre post : JsString.t) (c c' : codeUnit) :
  luhn (pre ++ c :: post) = true ->
  c' <> c ->
  luhn (pre ++ c' :: post) = false.
Proof.
  intros H Hne.
  destruct (luhn (pre ++ c' :: post)) eqn:E; [|reflexivity].
  elim Hne. exact (luhn_single_char pre post c c' H E).
Qed.

Lemma luhn_detects_substitution_witness :
  luhn (ofString "9001049818030") = false.
Proof.
  apply (luhn_detects_substitution
           (ofString "90010498180") (ofString "0") 56%N 51%N).
  - reflexivity.
  - discriminate.
Defined.

Lemma weightedSum_snoc (s : JsString.t) (c : codeUnit) :
  weightedSum (s ++ [c])
  = digitValue c + weightedSumFrom 1 (rev (List.map digitValue s)).
Proof.
  rewrite weightedSum_split. cbn [List.map rev weightedSumFrom List.length].
  unfold weightAt. change (Nat.odd 0) with false. cbv iota. lia.
Qed.

(** X2. Every string of digits has exactly one check digit: one digit
    that, appended on the right, makes [luhn] accept. *)
Theorem luhn_check_digit_unique (s : JsString.t) :
  allDigits s ->
  exists c,
    isAsciiDigit c = true
    /\ luhn (s ++ [c]) = true
    /\ forall c', luhn (s ++ [c']) = true -> c' = c.
Proof.
  intros Hs.
  set (R := weightedSumFrom 1 (rev (List.map digitValue s))).
  set (v := (10 - R mod 10) mod 10).
  assert (Hv : 0 <= v < 10) by (apply Z.mod_pos_bound; lia).
  exists (Z.to_N (48 + v)).
  assert (Hd : isAsciiDigit (Z.to_N (48 + v)) = true).
  { unfold isAsciiDigit. apply andb_true_iff.
    split; apply N.leb_le; lia. }
  assert (Hl : luhn (s ++ [Z.to_N (48 + v)]) = true).
  { apply luhn_true_iff. split.
    - unfold allDigits. apply Forall_app. split; [exact Hs|].
      repeat constructor. exact Hd.
    - rewrite weightedSum_snoc. fold R. unfold digitValue.
      rewrite Z2N.id by lia. subst v.
      Z.to_euclidean_division_equations. lia. }
  repeat split; try assumption.
  intros c' H'. exact (luhn_single_char s [] _ c' Hl H').
Qed.

Lemma luhn_check_digit_unique_witness :
  exists c,
    isAsciiDigit c = true
    /\ luhn (ofString "900104981808" ++ [c]) = true
    /\ forall c', luhn (ofString "900104981808" ++ [c']) = true -> c' = c.
Proof.
  apply luhn_check_digit_unique. repeat constructor.
Defined.

(** The weighted sum, split at two neighbouring characters. *)
Lemma weightedSum_split2 (pre post : JsString.t) (a b : codeUnit) :
  weightedSum (pre ++ a :: b :: post)
  = weightedSumFrom 0 (rev (List.map digitValue post))
    + weightAt (List.length post) (digitValue b)
    + weightAt (S (List.length post)) (digitValue a)
    + weightedSumFrom (S (S (List.length post)))
                      (rev (List.map digitValue pre)).
Proof.
  rewrite weightedSum_split. cbn [List.length].
  change (b :: post) with ([] ++ b :: post).
  change (weightedSumFrom 0 (rev (List.map digitValue ([] ++ b :: post))))
    with (weightedSum ([] ++ b :: post)).
  rewrite weightedSum_split. cbn [List.map rev weightedSumFrom]. lia.
Qed.

Lemma allDigits_swap (pre post : JsString.t) (a b : codeUnit) :
  allDigits (pre ++ a :: b :: post) <-> allDigits (pre ++ b :: a :: post).
Proof.
  rewrite !allDigits_split.
  change (b :: post) with ([] ++ b :: post).
  change (a :: post) with ([] ++ a :: post).
  rewrite !allDigits_split. tauto.
Qed.

(** X3. [luhn] detects the exchange of two neighbouring digits, unless
    they are equal or are 0 and 9. *)
Theorem luhn_detects_transposition
        (pre post : JsString.t) (a b : codeUnit) :
  luhn (pre ++ a :: b :: post) = true ->
  a <> b ->
  ~ (a = 48%N /\ b = 57%N) -> ~ (a = 57%N /\ b = 48%N) ->
  luhn (pre ++ b :: a :: post) = false.
Proof.
  intros H Hne H09 H90.
  destruct (luhn (pre ++ b :: a :: post)) eqn:E; [exfalso|reflexivity].
  apply luhn_true_iff in H, E.
  destruct H as [Hall H], E as [_ E].
  apply allDigits_split in Hall. destruct Hall as (_ & Ha & Hall).
  apply Forall_inv in Hall. rename Hall into Hb.
  rewrite weightedSum_split2 in H, E.
  set (A := weightedSumFrom 0 _) in *.
  set (B := weightedSumFrom (S (S _)) _) in *.
  unfold weightAt in H, E. rewrite Nat.odd_succ in H, E.
  rewrite <- Nat.negb_odd in H, E.
  destruct (Nat.odd (List.length post)); cbn [negb] in H, E;
    digit_cases Ha; digit_cases Hb;
    try (now elim Hne); try (now elim H09); try (now elim H90);
    vm_compute doubled in H, E; vm_compute digitValue in H, E;
    Z.to_euclidean_division_equations; lia.
Qed.

Lemma luhn_detects_transposition_witness :
  luhn (ofString "9001049818800") = false.
Proof.
  apply (luhn_detects_transposition
           (ofString "9001049818") (ofString "0") 48%N 56%N).
  - reflexivity.
  - discriminate.
  - intros [_ H]; discriminate H.
  - intros [H _]; discriminate H.
Defined.

(** X4. The blind spot of the check: exchanging a neighbouring 0 and 9
    never changes the answer of [luhn]. *)
Theorem luhn_blind_to_09 (pre post : JsString.t) :
  luhn (pre ++ 48%N :: 57%N :: post) = luhn (pre ++ 57%N :: 48%N :: post).
Proof.
  assert (H : luhn (pre ++ 48%N :: 57%N :: post) = true
              <-> luhn (pre ++ 57%N :: 48%N :: post) = true).
  { rewrite !luhn_true_iff, (allDigits_swap pre post 48%N 57%N),
      !weightedSum_split2.
    unfold weightAt. rewrite Nat.odd_succ, <- Nat.negb_odd.
    destruct (Nat.odd (List.length post)); cbn [negb];
      vm_compute doubled; vm_compute digitValue;
      split; intros [Hd Hs]; (split; [exact Hd|]);
      rewrite <- Hs; f_equal; lia. }
  destruct (luhn (pre ++ 48%N :: 57%N :: post)),
           (luhn (pre ++ 57%N :: 48%N :: post)); try reflexivity.
  - symmetry. now apply H.
  - now apply H.
Qed.

Lemma weightAt_zero (k : nat) : weightAt k (digitValue 48%N) = 0.
Proof. unfold weightAt. destruct (Nat.odd k); reflexivity. Qed.

(** X5. Zeros on the left do not matter: [luhn] gives the same answer
    with and without them. *)
Theorem luhn_leading_zeros (n : nat) (s : JsString.t) :
  luhn (repeat 48%N n ++ s) = luhn s.
Proof.
  induction n as [|n IH]; [reflexivity|].
  rewrite <- IH. cbn [repeat app].
  set (t := repeat 48%N n ++ s).
  assert (H : luhn (48%N :: t) = true <-> luhn t = true).
  { rewrite !luhn_true_iff.
    change (48%N :: t) with ([] ++ 48%N :: t).
    rewrite allDigits_split, weightedSum_split.
    cbn [List.map rev weightedSumFrom].
    rewrite weightAt_zero. unfold weightedSum.
    replace (weightedSumFrom 0 (rev (List.map digitValue t)) + 0 + 0)
      with (weightedSumFrom 0 (rev (List.map digitValue t))) by lia.
    split.
    - intros [(_ & _ & Ht) Hs]. split; assumption.
    - intros [Ht Hs]. repeat split; try assumption. constructor. }
  destruct (luhn (48%N :: t)), (luhn t); try reflexivity.
  - symmetry. now apply H.
  - now apply H.
Qed.

(** ** White space and single-character errors in [parse] *)

Lemma trim_outer_whitespace (pre s post : JsString.t) :
  Forall (fun c => isWhiteSpace c = true) pre ->
  Forall (fun c => isWhiteSpace c = true) post ->
  trim (pre ++ s ++ post) = trim s.
Proof.
  intros Hpre Hpost.
  destruct (trim_stripped s) as (p1 & p2 & E & H1 & H2 & Hh & Ht).
  apply stripped_unique.
  exists (pre ++ p1), (p2 ++ post).
  split; [rewrite E at 1; now rewrite <- !app_assoc|].
  split; [now apply Forall_app|].
  split; [now apply Forall_app|].
  split; assumption.
Qed.

(** X6. White space around the input never changes the outcome of
    [parse], whatever the outcome is. *)
Theorem parse_ignores_outer_whitespace
        (clk : Clock) (pre s post : JsString.t) :
  Forall (fun c => isWhiteSpace c = true) pre ->
  Forall (fun c => isWhiteSpace c = true) post ->
  parse clk (pre ++ s ++ post) = parse clk s.
Proof.
  intros Hpre Hpost.
  rewrite <- (parse_trim clk (pre ++ s ++ post)), <- (parse_trim clk s).
  now rewrite trim_outer_whitespace.
Qed.

Lemma parse_ignores_outer_whitespace_witness :
  parse exampleClock (ofString "  " ++ exampleId ++ [9%N; 10%N; 160%N])
  = parse exampleClock exampleId.
Proof.
  apply parse_ignores_outer_whitespace; repeat constructor.
Defined.

(** A string as long as its trim has no white space to lose. *)
Lemma trim_same_length (s : JsString.t) :
  List.length (trim s) = List.length s -> trim s = s.
Proof.
  intros Hlen.
  destruct (trim_stripped s) as (p1 & p2 & E & _).
  rewrite E in Hlen at 2. rewrite !length_app in Hlen.
  destruct p1; [|cbn [List.length] in Hlen; lia].
  destruct p2; [|cbn [List.length] in Hlen; lia].
  rewrite E at 2. cbn [app]. now rewrite app_nil_r.
Qed.

(** X7. An accepted ID with any one character replaced by a different
    one is never accepted: [isValid] answers [false]. *)
Theorem parse_detects_substitution
        (clk : Clock) (s pre post : JsString.t) (c c' : codeUnit)
        (p : ParsedID) :
  parse clk s = Valid p ->
  idNumber p = pre ++ c :: post ->
  c' <> c ->
  isValid clk (pre ++ c' :: post) = false.
Proof.
  intros Hp Hid Hne.
  destruct (parse_valid_inv clk s p Hp) as ([Hlen _] & dob & _ & _ & Hl & E).
  assert (Hid' : trim s = pre ++ c :: post).
  { rewrite <- Hid, E. reflexivity. }
  rewrite Hid' in Hlen, Hl. unfold checksumOk in Hl.
  unfold isValid.
  destruct (parse clk (pre ++ c' :: post)) as [p'|i] eqn:Hp'; [|reflexivity].
  exfalso.
  destruct (parse_valid_inv _ _ _ Hp') as ([Hlen' _] & _ & _ & _ & Hl' & _).
  assert (Hsame : List.length (pre ++ c' :: post) = 13%nat).
  { rewrite <- Hlen. rewrite !length_app. reflexivity. }
  rewrite trim_same_length in Hl' by congruence.
  unfold checksumOk in Hl'.
  apply Hne. exact (luhn_single_char pre post c c' Hl Hl').
Qed.

Lemma parse_detects_substitution_witness :
  isValid exampleClock (ofString "9001049818090") = false.
Proof.
  apply (parse_detects_substitution
           exampleClock exampleId (ofString "90010498180") (ofString "0")
           56%N 57%N exampleParsed).
  - vm_compute. reflexivity.
  - reflexivity.
  - discriminate.
Defined.

(** ** Dates and ages *)

Lemma yearField_range (id : JsString.t) :
  thirteenDigits id -> 0 <= yearField id <= 99.
Proof.
  intros H13.
  destruct (thirteenDigits_inv id H13)
    as (c0 & c1 & c2 & c3 & c4 & c5 & c6 & c7 & c8 & c9 & c10 & c11 & c12
        & -> & Hall).
  pose proof (Forall_inv Hall) as D0.
  pose proof (Forall_inv (Forall_inv_tail Hall)) as D1.
  exact (two_digits_range c0 c1 D0 D1).
Qed.

(** The birth date of a [Valid] outcome. *)
Lemma parse_valid_birth (clk : Clock) (s : JsString.t) (p : ParsedID) :
  parse clk s = Valid p ->
  let id := trim s in
  let year :=
    centuryYear (JsDate.getFullYear (readResolveYear clk)) (yearField id) in
  0 <= yearField id <= 99
  /\ dateOfBirth p = midnight year (monthField id) (dayField id)
  /\ dateOfInstant (dateOfBirth p) = (year, monthField id, dayField id)
  /\ realCalendarDate year (monthField id) (dayField id)
  /\ ~ laterDate (year, monthField id, dayField id)
                 (dateOfInstant (readParseDate clk))
  /\ age p = calculateAge (readCalculateAge clk) (dateOfBirth p).
Proof.
  intros Hp. cbv zeta.
  destruct (parse_valid_inv clk s p Hp) as (H13 & dob & Hd & _ & _ & ->).
  pose proof (parseDate_spec clk (trim s) H13) as Hpd. cbv zeta in Hpd.
  destruct Hpd as [[Hnone _]|(Hsome & Hreal & Hnot & Hdate)]; [congruence|].
  rewrite Hsome in Hd. injection Hd as <-.
  cbn [parsedOf dateOfBirth age].
  split; [now apply yearField_range|].
  repeat split; try assumption; apply Hreal.
Qed.

(** [calculateAge] by the calendar: the difference of the years, less
    one when today comes earlier in the year than the birthday. *)
Lemma calculateAge_eq (today dob : JsDate.date) :
  calculateAge today dob
  = JsDate.getFullYear today - JsDate.getFullYear dob
    - (if earlierInYear (JsDate.getMonth today, JsDate.getDate today)
                        (JsDate.getMonth dob, JsDate.getDate dob)
       then 1 else 0).
Proof.
  unfold calculateAge, earlierInYear. cbn [fst snd].
  rewrite Z.gtb_ltb, Z.geb_leb.
  set (a := JsDate.getMonth today). set (b := JsDate.getMonth dob).
  set (x := JsDate.getDate today). set (y := JsDate.getDate dob).
  destruct (b <? a) eqn:A; destruct (a =? b) eqn:B;
    destruct (y <=? x) eqn:C; destruct (a <? b) eqn:D;
    destruct (x <? y) eqn:F; cbn [negb orb andb]; try lia; exfalso;
    rewrite ?Z.ltb_lt, ?Z.ltb_ge, ?Z.leb_le, ?Z.leb_gt,
      ?Z.eqb_eq, ?Z.eqb_neq in *; lia.
Qed.


Ltac split_earlier :=
  unfold earlierInYear; cbn [fst snd];
  repeat match goal with
         | |- context [?a <? ?b] =>
             let H := fresh "Hc" in
             destruct (a <? b) eqn:H;
             [apply Z.ltb_lt in H|apply Z.ltb_ge in H]
         | |- context [?a =? ?b] =>
             let H := fresh "Hc" in
             destruct (a =? b) eqn:H;
             [apply Z.eqb_eq in H|apply Z.eqb_neq in H]
         end;
  cbn [orb andb].







(** ** Segments and derived fields *)

(** X11. On a [Valid] outcome the gender can be read off one character:
    it is [male] exactly when the seventh character of the ID (index 6)
    is one of the digits 5 to 9. *)
Theorem parse_gender_by_seventh_char
        (clk : Clock) (s : JsString.t) (p : ParsedID) :
  parse clk s = Valid p ->
  exists c,
    nth_error (idNumber p) 6 = Some c
    /\ (gender p = male <-> (53 <= c)%N)
    /\ (gender p = female <-> (c < 53)%N).
Proof.
  intros Hp.
  destruct (parse_valid_inv clk s p Hp) as (H13 & dob & _ & _ & _ & ->).
  destruct (thirteenDigits_inv _ H13)
    as (c0 & c1 & c2 & c3 & c4 & c5 & c6 & c7 & c8 & c9 & c10 & c11 & c12
        & E & Hall).
  cbn [parsedOf idNumber gender]. rewrite E.
  exists c6. split; [reflexivity|].
  do 6 apply Forall_inv_tail in Hall.
  pose proof (Forall_inv Hall) as D6. apply Forall_inv_tail in Hall.
  pose proof (Forall_inv Hall) as D7. apply Forall_inv_tail in Hall.
  pose proof (Forall_inv Hall) as D8. apply Forall_inv_tail in Hall.
  pose proof (Forall_inv Hall) as D9. cbv beta in *.
  pose proof (digitValue_range _ D6) as R6.
  pose proof (digitValue_range _ D7) as R7.
  pose proof (digitValue_range _ D8) as R8.
  pose proof (digitValue_range _ D9) as R9.
  unfold genderField, field, decimalValue.
  cbn [firstn skipn List.map fold_left].
  unfold digitValue in *.
  destruct (_ >=? 5000) eqn:G;
    [rewrite Z.geb_le in G|rewrite Z.geb_leb in G; apply Z.leb_gt in G];
    repeat split; intros; try discriminate; try reflexivity; try lia.
Qed.

Lemma parse_gender_by_seventh_char_witness :
  exists c,
    nth_error (idNumber exampleParsed) 6 = Some c
    /\ (gender exampleParsed = male <-> (53 <= c)%N)
    /\ (gender exampleParsed = female <-> (c < 53)%N).
Proof.
  apply (parse_gender_by_seventh_char exampleClock exampleId).
  vm_compute. reflexivity.
Defined.

Lemma firstn_app_skipn {A} (n m : nat) (l : list A) :
  firstn n l ++ firstn m (skipn n l) = firstn (n + m) l.
Proof.
  revert l. induction n as [|n IH]; intros l; [reflexivity|].
  destruct l as [|a l]; cbn [firstn skipn app Nat.add].
  - now rewrite firstn_nil.
  - now rewrite IH.
Qed.

(** Neighbouring slices join. *)
Lemma slice_app (id : JsString.t) (a b c : nat) :
  (a <= b <= c)%nat -> slice id a b ++ slice id b c = slice id a c.
Proof.
  intros H. unfold slice.
  replace (skipn b id) with (skipn (b - a) (skipn a id))
    by (rewrite skipn_skipn; f_equal; lia).
  rewrite firstn_app_skipn. f_equal. lia.
Qed.

Lemma slice_length_le (id : JsString.t) (a b : nat) :
  (List.length (slice id a b) <= b - a)%nat.
Proof. unfold slice. apply firstn_le_length. Qed.

(** X12. [extractSegments] is safe on any string: put together, the
    seven segments are the first 13 characters of the input (all of it
    when it is shorter), and no segment is longer than its nominal
    width. *)
Theorem extractSegments_any_input (id : JsString.t) :
  let g := extractSegments id in
  yearPart g ++ monthPart g ++ dayPart g ++ genderSequence g
  ++ citizenshipDigit g ++ legacyDigit g ++ checksumDigit g = firstn 13 id
  /\ ((List.length id <= 13)%nat ->
      yearPart g ++ monthPart g ++ dayPart g ++ genderSequence g
      ++ citizenshipDigit g ++ legacyDigit g ++ checksumDigit g = id)
  /\ (List.length (yearPart g) <= 2
      /\ List.length (monthPart g) <= 2
      /\ List.length (dayPart g) <= 2
      /\ List.length (genderSequence g) <= 4
      /\ List.length (citizenshipDigit g) <= 1
      /\ List.length (legacyDigit g) <= 1
      /\ List.length (checksumDigit g) <= 1)%nat.
Proof.
  cbv zeta.
  cbn [extractSegments yearPart monthPart dayPart genderSequence
         citizenshipDigit legacyDigit checksumDigit].
  assert (E : slice id 0 2 ++ slice id 2 4 ++ slice id 4 6 ++ slice id 6 10
              ++ slice id 10 11 ++ slice id 11 12 ++ slice id 12 13
              = firstn 13 id).
  { rewrite (slice_app id 11 12 13), (slice_app id 10 11 13),
      (slice_app id 6 10 13), (slice_app id 4 6 13), (slice_app id 2 4 13),
      (slice_app id 0 2 13) by lia.
    reflexivity. }
  split; [exact E|]. split.
  - intros Hlen. rewrite E. now apply firstn_all2.
  - repeat split; apply (slice_length_le id).
Qed.

(** ** The clock *)

Lemma getters_Day (t t' : JsDate.date) :
  JsDate.Day t = JsDate.Day t' ->
  JsDate.getFullYear t = JsDate.getFullYear t'
  /\ JsDate.getMonth t = JsDate.getMonth t'
  /\ JsDate.getDate t = JsDate.getDate t'.
Proof.
  intros H.
  unfold JsDate.getFullYear, JsDate.getMonth, JsDate.getDate,
    JsDate.DateFromTime, JsDate.MonthFromTime, JsDate.DayWithinYear,
    JsDate.InLeapYear, JsDate.YearFromTime.
  rewrite H. repeat split.
Qed.

Lemma make_is_midnight (y m d : Z) :
  exists n, JsDate.make y m d = JsDate.MakeDate n 0.
Proof. unfold JsDate.make. eexists. reflexivity. Qed.





(** X17. [calculateAge] counts the completed years: with the result [a],
    the [a]-th anniversary of the birth date is not after today, the next
    one is, and [a] is the only number of which both hold. *)
Theorem calculateAge_completed_years (today dob : JsDate.date) :
  let '(y, m, d) := dateOfInstant dob in
  let a := calculateAge today dob in
  ~ laterDate (y + a, m, d) (dateOfInstant today)
  /\ laterDate (y + a + 1, m, d) (dateOfInstant today)
  /\ forall k,
      ~ laterDate (y + k, m, d) (dateOfInstant today) ->
      laterDate (y + k + 1, m, d) (dateOfInstant today) ->
      k = a.
Proof.
  unfold dateOfInstant. cbv zeta. rewrite calculateAge_eq.
  cbv beta iota delta [laterDate].
  set (ty := JsDate.getFullYear today). set (tm := JsDate.getMonth today).
  set (td := JsDate.getDate today). set (y := JsDate.getFullYear dob).
  set (m := JsDate.getMonth dob). set (d := JsDate.getDate dob).
  split_earlier; (split; [lia|]); (split; [lia|]); intros k H1 H2; lia.
Qed.

(** ** The example functions *)

(** X15. [validateForm] answers [ok] exactly for the inputs that
    [isValid] accepts; its message is never [undefined], the [messages]
    object having an entry for each reason; and the message tells the
    outcome: two inputs with the same message have the same validity and
    the same reason. *)
Theorem validateForm_spec (clk : Clock) (s : JsString.t) :
  Examples.ok (Examples.validateForm clk s) = isValid clk s
  /\ (exists m, Examples.message (Examples.validateForm clk s) = Some m)
  /\ (forall s',
        Examples.message (Examples.validateForm clk s)
        = Examples.message (Examples.validateForm clk s') ->
        resultReason (parse clk s) = resultReason (parse clk s')).
Proof.
  unfold Examples.validateForm, isValid.
  split; [destruct (parse clk s); reflexivity|].
  split.
  - destruct (parse clk s) as [p|[id r]]; [eexists; reflexivity|].
    destruct r; eexists; reflexivity.
  - intros s'.
    destruct (parse clk s) as [p|[id r]], (parse clk s') as [p'|[id' r']];
      cbn [Examples.message resultReason reason valid];
      try reflexivity; try destruct r; try destruct r';
      vm_compute; intros E; try reflexivity; discriminate E.
Qed.

Lemma decimalDigit_is_digit (n : Z) : isAsciiDigit (decimalDigit n) = true.
Proof.
  unfold isAsciiDigit, decimalDigit.
  pose proof (Z.mod_pos_bound n 10 ltac:(lia)).
  apply andb_true_iff. split; apply N.leb_le; lia.
Qed.

Lemma padDecimal_digits (w : nat) (n : Z) : allDigits (padDecimal w n).
Proof.
  revert n. induction w as [|w IH]; intros n; cbn [padDecimal].
  - constructor.
  - apply Forall_app. split; [apply IH|].
    repeat constructor. apply decimalDigit_is_digit.
Qed.

Lemma splitHead_at (sep : codeUnit) (pre rest : JsString.t) :
  Forall (fun c => N.eqb c sep = false) pre ->
  splitHead sep (pre ++ sep :: rest) = pre.
Proof.
  induction 1 as [|c pre Hc _ IH]; cbn [app splitHead].
  - now rewrite N.eqb_refl.
  - now rewrite Hc, IH.
Qed.

Lemma isoDate_no_T (d : calendarDate) :
  Forall (fun c => N.eqb c 84%N = false) (isoDate d).
Proof.
  destruct d as [[y m] dd]. unfold isoDate.
  assert (P : forall w n,
             Forall (fun c => N.eqb c 84%N = false) (padDecimal w n)).
  { intros w n. pose proof (padDecimal_digits w n) as H.
    unfold allDigits in H. rewrite Forall_forall in *.
    intros c Hin. specialize (H c Hin). digit_cases H; reflexivity. }
  change (ofString "-") with [45%N]. cbn [app].
  apply Forall_app. split; [apply P|].
  constructor; [reflexivity|].
  apply Forall_app. split; [apply P|].
  constructor; [reflexivity|apply P].
Qed.

(** The date part of [toISOString] is the UTC calendar date. *)
Lemma toISOString_date (tza : Z) (d : JsDate.date) :
  splitHead 84%N (toISOString tza d) = isoDate (dateOfInstant (d - tza)).
Proof.
  unfold toISOString, dateOfInstant. cbv zeta.
  set (rest := padDecimal 2 ((d - tza) / 3600000 mod 24) ++ _).
  change (ofString "T") with [84%N].
  rewrite <- (splitHead_at 84%N (isoDate _) rest (isoDate_no_T _)).
  unfold isoDate, JsDate.getFullYear, JsDate.getMonth, JsDate.getDate.
  now rewrite <- !app_assoc.
Qed.

Lemma parse_valid_midnight (clk : Clock) (s : JsString.t) (p : ParsedID) :
  parse clk s = Valid p -> exists n, dateOfBirth p = JsDate.MakeDate n 0.
Proof.
  intros Hp.
  destruct (parse_valid_birth _ _ _ Hp) as (_ & -> & _).
  apply make_is_midnight.
Qed.

(** X16. [buildProfile] answers [null] exactly on invalid input.  On
    valid input it copies the age and the gender, says "SA Citizen"
    exactly for a citizen, and prints as [dob] the UTC calendar date of
    the local midnight of birth: the birth date in a zone at or west of
    Greenwich, and the day before the birth date in every zone east of
    it, South Africa among them. *)
Theorem buildProfile_spec (tza : Z) (clk : Clock) (s : JsString.t) :
  (forall i, parse clk s = Invalid i ->
     Examples.buildProfile tza clk s = None)
  /\ (forall p, parse clk s = Valid p ->
        exists pr,
          Examples.buildProfile tza clk s = Some pr
          /\ Examples.profileAge pr = age p
          /\ Examples.profileGender pr = gender p
          /\ (Examples.status pr = "SA Citizen"%string
              <-> citizenship p = citizen)
          /\ (- JsDate.msPerDay < tza <= 0 ->
              Examples.dob pr = isoDate (dateOfInstant (dateOfBirth p)))
          /\ (0 < tza <= JsDate.msPerDay ->
              Examples.dob pr
              = isoDate (dateOfInstant (dateOfBirth p - JsDate.msPerDay)))).
Proof.
  unfold Examples.buildProfile. split.
  - intros i ->. reflexivity.
  - intros p Hp. rewrite Hp. eexists. split; [reflexivity|].
    cbn [Examples.profileAge Examples.profileGender Examples.status
           Examples.dob].
    split; [reflexivity|]. split; [reflexivity|].
    destruct (parse_valid_midnight _ _ _ Hp) as [n Hn].
    destruct (parse_valid_inv _ _ _ Hp) as (_ & dob & _ & _ & _ & E).
    split.
    { rewrite E. cbn [parsedOf isCitizen citizenship].
      destruct (citizenDigit (trim s)); split; intros H;
        try reflexivity; discriminate H. }
    rewrite toISOString_date, Hn.
    unfold JsDate.MakeDate. rewrite Z.add_0_r.
    split; intros Htz; f_equal.
    + destruct (getters_Day (n * JsDate.msPerDay - tza)
                            (n * JsDate.msPerDay)) as (Ey & Em & Ed).
      { unfold JsDate.Day, JsDate.msPerDay in *.
        Z.to_euclidean_division_equations. lia. }
      unfold dateOfInstant. now rewrite Ey, Em, Ed.
    + destruct (getters_Day (n * JsDate.msPerDay - tza)
                            (n * JsDate.msPerDay - JsDate.msPerDay))
        as (Ey & Em & Ed).
      { unfold JsDate.Day, JsDate.msPerDay in *.
        Z.to_euclidean_division_equations. lia. }
      unfold dateOfInstant. now rewrite Ey, Em, Ed.
Qed.

(** In South African Standard Time the profile of the example ID, born
    4 January 1990, shows 3 January. *)
Example buildProfile_SAST :
  option_map Examples.dob (Examples.buildProfile SAST exampleClock exampleId)
  = Some (ofString "1990-01-03").
Proof. vm_compute. reflexivity. Qed.

Example buildProfile_UTC :
  option_map Examples.dob (Examples.buildProfile 0 exampleClock exampleId)
  = Some (ofString "1990-01-04").
Proof. vm_compute. reflexivity. Qed.

(** ** The host zone *)

Lemma gtb_shift (a b c : Z) : (a - c >? b) = (a >? b + c).
Proof.
  rewrite !Z.gtb_ltb.
  destruct (b <? a - c) eqn:A; destruct (b + c <? a) eqn:B;
    try reflexivity; exfalso;
    rewrite ?Z.ltb_lt, ?Z.ltb_ge in *; lia.
Qed.

(** In a zone of fixed offset the date check is the one of [parseDate],
    on local time values. *)
Lemma parseDate_fixedOffset (tza : Z) (clk : Clock) (segs : RawSegments) :
  HostZone.parseDate (HostZone.fixedOffset tza) clk segs
  = option_map (fun d => d - tza)
               (parseDate (HostZone.localClock tza clk) segs).
Proof.
  unfold HostZone.parseDate, parseDate.
  destruct (parseInt (yearPart segs)) as [yy|]; [|reflexivity].
  destruct (parseInt (monthPart segs)) as [mm|]; [|reflexivity].
  destruct (parseInt (dayPart segs)) as [dd|]; [|reflexivity].
  destruct ((mm <? 1) || (mm >? 12)); [reflexivity|].
  destruct ((dd <? 1) || (dd >? 31)); [reflexivity|].
  cbv zeta.
  change (HostZone.resolveYear (HostZone.fixedOffset tza)
            (readResolveYear clk) yy)
    with (resolveYear (readResolveYear (HostZone.localClock tza clk)) yy).
  set (year := resolveYear _ yy).
  unfold HostZone.make, HostZone.UTC, HostZone.getFullYear,
    HostZone.getMonth, HostZone.getDate, HostZone.LocalTime.
  cbn [HostZone.fixedOffset HostZone.offsetAt HostZone.offsetOfLocal
         HostZone.localClock readParseDate].
  rewrite Z.sub_add, gtb_shift.
  unfold JsDate.getFullYear, JsDate.getMonth, JsDate.getDate.
  destruct (_ || _); [reflexivity|].
  destruct (_ >? _); reflexivity.
Qed.

Lemma calculateAge_fixedOffset (tza : Z) (today dob : JsDate.date) :
  HostZone.calculateAge (HostZone.fixedOffset tza) today (dob - tza)
  = calculateAge (today + tza) dob.
Proof.
  unfold HostZone.calculateAge, calculateAge, HostZone.getFullYear,
    HostZone.getMonth, HostZone.getDate, HostZone.LocalTime.
  cbn [HostZone.fixedOffset HostZone.offsetAt].
  now rewrite Z.sub_add.
Qed.

(** In a zone of fixed offset [HostZone.parse] is [parse]: the same
    outcome, the clock and the date of birth read as local time values. *)
Lemma parse_fixedOffset (tza : Z) (clk : Clock) (s : JsString.t) :
  HostZone.parse (HostZone.fixedOffset tza) clk s
  = HostZone.toTimeValue tza (parse (HostZone.localClock tza clk) s).
Proof.
  unfold HostZone.parse, parse. cbv zeta.
  destruct (negb (RegExp.test ID_REGEX (trim s))); [reflexivity|].
  rewrite parseDate_fixedOffset.
  destruct (parseDate _ _) as [dob|]; [|reflexivity].
  cbn [option_map].
  destruct (_ && _); [reflexivity|].
  destruct (negb (luhn _)); [reflexivity|].
  cbn [HostZone.toTimeValue idNumber dateOfBirth age gender citizenship
         isCitizen segments].
  now rewrite calculateAge_fixedOffset.
Qed.

Lemma resultReason_toTimeValue (tza : Z) (r : IDResult) :
  resultReason (HostZone.toTimeValue tza r) = resultReason r.
Proof. destruct r; reflexivity. Qed.

(** C2.  The claim fails on a host whose zone skipped a calendar day.
    In the zone of Samoa, which had no 30 December 2011, [parse] answers
    [INVALID_DATE] for an ID born on that day, read in 2025: its month is
    in 1..12, its day in 1..31, the date is a real calendar date and it
    is not after the current date, so none of the four conditions of the
    claim holds.  [new Date(2011, 11, 30)] is there the first instant of
    31 December, and the guard against rolled-over dates, meant for dates
    that do not exist, rejects it. *)
Theorem parse_rejects_skipped_local_day :
  let s := ofString "1112305000087" in
  let clk := fixedClock (midnight 2025 6 15) in
  let z := HostZone.apia in
  let id := trim s in
  let mm := monthField id in
  let dd := dayField id in
  let year :=
    centuryYear (HostZone.getFullYear z (readResolveYear clk))
                (yearField id) in
  let today := HostZone.dateOfInstant z (readParseDate clk) in
  thirteenDigits id
  /\ resultReason (HostZone.parse z clk s) = Some INVALID_DATE
  /\ ~ ((mm < 1 \/ 12 < mm) \/ (dd < 1 \/ 31 < dd)
        \/ ~ realCalendarDate year mm dd
        \/ laterDate (year, mm, dd) today)
  /\ (year, mm, dd) = (2011, 12, 30)
  /\ today = (2025, 6, 15)
  /\ HostZone.dateOfInstant z (HostZone.make z 2011 11 30) = (2011, 12, 31)
  /\ valid (HostZone.parse (HostZone.fixedOffset 7200000) clk s) = true.
Proof.
  cbv zeta.
  split; [apply thirteenDigitsb_spec; reflexivity|].
  split; [vm_compute; reflexivity|].
  assert (Ey : centuryYear
                 (HostZone.getFullYear HostZone.apia
                    (readResolveYear (fixedClock (midnight 2025 6 15))))
                 (yearField (trim (ofString "1112305000087"))) = 2011)
    by (vm_compute; reflexivity).
  assert (Em : monthField (trim (ofString "1112305000087")) = 12)
    by (vm_compute; reflexivity).
  assert (Ed : dayField (trim (ofString "1112305000087")) = 30)
    by (vm_compute; reflexivity).
  assert (T : HostZone.dateOfInstant HostZone.apia
                (readParseDate (fixedClock (midnight 2025 6 15)))
              = (2025, 6, 15)) by (vm_compute; reflexivity).
  rewrite Ey, Em, Ed, T.
  split.
  - unfold realCalendarDate, laterDate.
    change (daysInMonth 2011 12) with 31. lia.
  - repeat split; vm_compute; reflexivity.
Qed.

(** X18. On a host whose zone keeps one offset from UTC, as South
    African Standard Time does, [parse] answers [INVALID_DATE] for a
    trimmed input of 13 digits exactly when the month is outside 1..12,
    or the day is outside 1..31, or year, month and day are no real
    calendar date (the year being 2000 + YY when that does not exceed the
    current local year, 1900 + YY otherwise), or that date is after the
    current local date. *)
Theorem parse_invalid_date_iff_fixed_offset
        (tza : Z) (clk : Clock) (s : JsString.t) :
  thirteenDigits (trim s) ->
  let z := HostZone.fixedOffset tza in
  let id := trim s in
  let mm := monthField id in
  let dd := dayField id in
  let year :=
    centuryYear (HostZone.getFullYear z (readResolveYear clk))
                (yearField id) in
  let today := HostZone.dateOfInstant z (readParseDate clk) in
  resultReason (HostZone.parse z clk s) = Some INVALID_DATE
  <-> ((mm < 1 \/ 12 < mm) \/ (dd < 1 \/ 31 < dd)
       \/ ~ realCalendarDate year mm dd
       \/ laterDate (year, mm, dd) today).
Proof.
  intros H13. cbv zeta.
  rewrite parse_fixedOffset, resultReason_toTimeValue.
  exact (parse_invalid_date_iff (HostZone.localClock tza clk) s H13).
Qed.

Lemma parse_invalid_date_iff_fixed_offset_witness :
  resultReason
    (HostZone.parse (HostZone.fixedOffset SAST)
       (fixedClock (midnight 2025 6 15)) (ofString "9002309818089"))
  = Some INVALID_DATE
  <-> ((2 < 1 \/ 12 < 2) \/ (30 < 1 \/ 31 < 30)
       \/ ~ realCalendarDate 1990 2 30
       \/ laterDate (1990, 2, 30) (2025, 6, 15)).
Proof.
  assert (H : thirteenDigits (trim (ofString "9002309818089")))
    by (apply thirteenDigitsb_spec; reflexivity).
  exact (parse_invalid_date_iff_fixed_offset
           SAST (fixedClock (midnight 2025 6 15))
           (ofString "9002309818089") H).
Defined.

(** What a [Valid] outcome of [HostZone.parse] tells about the input. *)
Lemma parse_zone_valid_inv
      (z : HostZone.Zone) (clk : Clock) (s : JsString.t) (p : ParsedID) :
  HostZone.parse z clk s = Valid p ->
  thirteenDigits (trim s)
  /\ luhn (trim s) = true
  /\ idNumber p = trim s
  /\ HostZone.parseDate z clk (extractSegments (trim s))
     = Some (dateOfBirth p)
  /\ (isCitizen p = true <-> citizenship p = citizen).
Proof.
  unfold HostZone.parse. cbv zeta. rewrite ID_REGEX_test.
  destruct (thirteenDigitsb (trim s)) eqn:F; [|discriminate].
  apply thirteenDigitsb_spec in F. cbn [negb].
  destruct (HostZone.parseDate z clk _) as [dob|]; [|discriminate].
  destruct (_ && _); [discriminate|].
  destruct (luhn (trim s)) eqn:L; [|discriminate].
  cbn [negb]. intros [= <-].
  cbn [idNumber dateOfBirth isCitizen citizenship].
  split; [exact F|]. do 3 (split; [reflexivity|]).
  match goal with
  | |- context [strEq ?a ?b] => destruct (strEq a b)
  end; split; intros H; try reflexivity; discriminate H.
Qed.

(** What the date check of [HostZone.parseDate] lets through. *)
Lemma parseDate_zone_some
      (z : HostZone.Zone) (clk : Clock) (segs : RawSegments)
      (dob : JsDate.date) :
  HostZone.parseDate z clk segs = Some dob ->
  exists yy mm dd,
    parseInt (yearPart segs) = Some yy
    /\ parseInt (monthPart segs) = Some mm
    /\ parseInt (dayPart segs) = Some dd
    /\ HostZone.dateOfInstant z dob
       = (HostZone.resolveYear z (readResolveYear clk) yy, mm, dd)
    /\ dob <= readParseDate clk.
Proof.
  unfold HostZone.parseDate.
  destruct (parseInt (yearPart segs)) as [yy|]; [|discriminate].
  destruct (parseInt (monthPart segs)) as [mm|]; [|discriminate].
  destruct (parseInt (dayPart segs)) as [dd|]; [|discriminate].
  destruct ((mm <? 1) || (mm >? 12)); [discriminate|].
  destruct ((dd <? 1) || (dd >? 31)); [discriminate|].
  cbv zeta.
  set (year := HostZone.resolveYear z (readResolveYear clk) yy).
  set (date := HostZone.make z year (mm - 1) dd).
  destruct (HostZone.getFullYear z date =? year) eqn:E1; [|discriminate].
  destruct (HostZone.getMonth z date =? mm - 1) eqn:E2; [|discriminate].
  destruct (HostZone.getDate z date =? dd) eqn:E3; [|discriminate].
  cbn [negb orb].
  destruct (date >? readParseDate clk) eqn:E4; [discriminate|].
  intros [= <-]. exists yy, mm, dd.
  apply Z.eqb_eq in E1, E2, E3.
  rewrite Z.gtb_ltb in E4. apply Z.ltb_ge in E4.
  repeat split; try assumption.
  unfold HostZone.dateOfInstant. rewrite E1, E2, E3.
  f_equal. f_equal. lia.
Qed.

(** X14. On a host in any time zone, every [Valid] outcome carries an
    [idNumber] of 13 digits that passes [luhn]; an [isCitizen] flag that
    agrees with the [citizenship] tag; and a [dateOfBirth] that is an
    instant not after the reading of the clock, whose local calendar date
    is real and is the one that the first six digits spell. *)
Theorem parse_valid_invariants
        (z : HostZone.Zone) (clk : Clock) (s : JsString.t) (p : ParsedID) :
  HostZone.parse z clk s = Valid p ->
  thirteenDigits (idNumber p)
  /\ luhn (idNumber p) = true
  /\ (isCitizen p = true <-> citizenship p = citizen)
  /\ HostZone.dateOfInstant z (dateOfBirth p)
     = (HostZone.resolveYear z (readResolveYear clk)
                             (yearField (idNumber p)),
        monthField (idNumber p), dayField (idNumber p))
  /\ (let '(y, m, d) := HostZone.dateOfInstant z (dateOfBirth p) in
      realCalendarDate y m d)
  /\ dateOfBirth p <= readParseDate clk.
Proof.
  intros Hp.
  destruct (parse_zone_valid_inv z clk s p Hp) as (H13 & Hl & -> & Hd & Hc).
  destruct (parseDate_zone_some z clk _ _ Hd)
    as (yy & mm & dd & Hy & Hm & Hdd & Hdate & Hle).
  destruct (parseInt_fields (trim s) H13) as (Fy & Fm & Fd & _).
  rewrite Fy in Hy. rewrite Fm in Hm. rewrite Fd in Hdd.
  injection Hy as <-. injection Hm as <-. injection Hdd as <-.
  split; [exact H13|]. split; [exact Hl|]. split; [exact Hc|].
  split; [exact Hdate|]. split; [|exact Hle].
  unfold HostZone.dateOfInstant, HostZone.getFullYear, HostZone.getMonth,
    HostZone.getDate.
  exact (DateFacts.getters_real (HostZone.LocalTime z (dateOfBirth p))).
Qed.

Lemma parse_valid_invariants_witness :
  exists p,
    HostZone.parse HostZone.saoPaulo (fixedClock (midnight 2025 6 15))
                   (ofString "1811045000089") = Valid p
    /\ luhn (idNumber p) = true
    /\ HostZone.dateOfInstant HostZone.saoPaulo (dateOfBirth p)
       = (2018, 11, 4)
    /\ dateOfBirth p <= midnight 2025 6 15.
Proof.
  destruct (HostZone.parse HostZone.saoPaulo
              (fixedClock (midnight 2025 6 15))
              (ofString "1811045000089")) as [p|i] eqn:Hp;
    [|vm_compute in Hp; discriminate Hp].
  exists p.
  destruct (parse_valid_invariants _ _ _ _ Hp)
    as (_ & Hl & _ & Hdate & _ & Hle).
  split; [reflexivity|]. split; [exact Hl|].
  split; [|exact Hle].
  rewrite Hdate.
  assert (E : idNumber p = ofString "1811045000089").
  { vm_compute in Hp. injection Hp as <-. reflexivity. }
  rewrite E. vm_compute. reflexivity.
Defined.

(** Where daylight saving begins at midnight, the date of birth is not a
    local midnight: for 4 November 2018 in Brazil it is 01:00. *)
Example parse_saoPaulo_one_o_clock :
  match HostZone.parse HostZone.saoPaulo (fixedClock (midnight 2025 6 15))
                       (ofString "1811045000089") with
  | Valid p =>
      Some (HostZone.LocalTime HostZone.saoPaulo (dateOfBirth p)
            mod JsDate.msPerDay)
  | Invalid _ => None
  end = Some 3600000.
Proof. vm_compute. reflexivity. Qed.
